(** * VDS2425: the aggregation pipelines of the Madrid air-quality charts

    A shallow embedding of [src/dataPreparation.py] (the annual summary)
    and of [src/main.py] (seasonal means and ranks, seasonal shares,
    station ranking, the figures drawn from these tables and the trend
    chart of the annual summary), with the properties the specification
    states about them and further properties of the code.

    Numbers are exact rationals ([Qc]); a missing value (NaN) is [None].
    What pandas does is written out as list functions next to the code
    that calls it. *)

From Stdlib Require Import QArith Qcanon ZArith Ascii String Lia.
From stdpp Require Import base tactics option strings pretty sorting numbers.
From stdpp Require Import list.

Local Open Scope Z_scope.
Local Open Scope string_scope.
Local Open Scope Qc_scope.

(** ** Python exceptions and results *)

Inductive exn :=
  | FileNotFoundError (msg : string)
  | ValueError (msg : string)
  | AttributeError (msg : string)
  | KeyError (key : string)
  | IndexError (msg : string).

Inductive result (A : Type) :=
  | Ok (a : A)
  | Raise (e : exn).
Arguments Ok {A} a.
Arguments Raise {A} e.

#[global] Instance exn_eq_dec : EqDecision exn.
Proof. solve_decision. Defined.
#[global] Instance result_eq_dec `{EqDecision A} : EqDecision (result A).
Proof. solve_decision. Defined.

#[global] Instance result_ret : MRet result := λ A a, Ok a.
#[global] Instance result_bind : MBind result := λ A B f m,
  match m with Ok a => f a | Raise e => Raise e end.

(** A [for] loop whose body may raise: the first exception ends it. *)
Fixpoint for_each {A B : Type} (body : A → result B) (l : list A)
    : result (list B) :=
  match l with
  | [] => Ok []
  | x :: l' => y ← body x; ys ← for_each body l'; Ok (y :: ys)
  end.

Definition is_ok {A} (r : result A) : Prop :=
  match r with Ok _ => True | Raise _ => False end.

(** ** The input files *)

(** A cell of the [date] column, as the date parser of pandas sees it:
    a text that parses to a day of year [y], month [m]; an empty field;
    or a text that is no date. *)
Inductive date_cell :=
  | DateOK (y m : Z)
  | DateNA
  | DateBad.

(** A parsed column holds timestamps; [None] is [NaT]. Only the year and
    the month of a timestamp are ever read. *)
Abbreviation timestamp := (option (Z * Z)).

(** One line of a yearly file: its date field, and its numeric fields in
    the order of the header (an empty field is [None]). *)
Record row := Row {
  r_date : date_cell;
  r_vals : list (option Qc)
}.

(** What [pd.read_csv] makes of a yearly file: whether the header has a
    [date] column, the names of the other columns, and the lines. The
    other columns are numeric: the measurements, and the identifier of
    the station. *)
Record csv := Csv {
  has_date : bool;
  columns : list string;
  rows : list row
}.

(** [DATA_DIR]: the entries of the directory in the order the operating
    system lists them, each with the table read from it. *)
Abbreviation directory := (list (string * csv)).

#[global] Instance date_cell_eq_dec : EqDecision date_cell.
Proof. solve_decision. Defined.
#[global] Instance row_eq_dec : EqDecision row.
Proof. solve_decision. Defined.
#[global] Instance csv_eq_dec : EqDecision csv.
Proof. solve_decision. Defined.

(** A directory holds one entry per name. *)
Definition unique_names (d : directory) : Prop := NoDup d.*1.

(** ** pandas and Python primitives *)

(** [pd.to_datetime(..., errors='coerce')]: what does not parse is NaT. *)
Definition to_datetime_coerce (d : date_cell) : timestamp :=
  match d with
  | DateOK y m => Some (y, m)
  | DateNA | DateBad => None
  end.

(** The lines of a table, each with its timestamp. *)
Definition parsed_dates (df : csv) : list (timestamp * row) :=
  (λ r, (to_datetime_coerce (r_date r), r)) <$> rows df.

(** [pd.read_csv(..., parse_dates=['date'])]. A header without the
    column makes it raise. When every field parses or is empty the
    column holds timestamps (NaT for the empty ones); one field that is
    no date leaves the whole column as text ([None]). *)
Definition read_csv_parse_dates (df : csv)
    : result (option (list (timestamp * row))) :=
  if negb (has_date df) then
    Raise (ValueError "Missing column provided to 'parse_dates': 'date'")
  else if bool_decide (Exists (λ r, r_date r = DateBad) (rows df)) then
    Ok None
  else Ok (Some (parsed_dates df)).

(** A file is read without an exception when its header has the
    [date] column and every date field parses or is empty. *)
Definition dates_parse (df : csv) : Prop :=
  has_date df = true ∧ Forall (λ r, r_date r ≠ DateBad) (rows df).
#[global] Instance dates_parse_dec df : Decision (dates_parse df).
Proof. unfold dates_parse. apply _. Defined.

(** A line has a date when its date field parses. *)
Definition dated (r : row) : Prop := is_Some (to_datetime_coerce (r_date r)).
#[global] Instance dated_dec r : Decision (dated r).
Proof. unfold dated. apply _. Defined.


(** The [.dt] accessor of [df['date']]: it raises on a text column. *)
Definition dt (date : option (list (timestamp * row)))
    : result (list (timestamp * row)) :=
  match date with
  | Some l => Ok l
  | None =>
      Raise (AttributeError "Can only use .dt accessor with datetimelike values")
  end.

Definition dt_year (t : timestamp) : option Z := fst <$> t.
Definition dt_month (t : timestamp) : option Z := snd <$> t.

(** Position of a column in the header (the first one of that name). *)
Fixpoint col_index (c : string) (cols : list string) : option nat :=
  match cols with
  | [] => None
  | c' :: cols' => if decide (c = c') then Some O else S <$> col_index c cols'
  end.

(** [df[c]] at one line; a line shorter than the header is padded with
    missing values. *)
Definition cell (cols : list string) (c : string) (r : row) : option Qc :=
  i ← col_index c cols; mjoin (r_vals r !! i).

(** [m in [a, b, c]] for a month that may be NaN: NaN equals nothing. *)
Definition month_in (m : option Z) (l : list Z) : bool :=
  match m with
  | Some z => bool_decide (z ∈ l)
  | None => false
  end.

(** The lambda mapped over [df['month']] (the same in both seasonal
    functions). [Series.map] calls it on every entry, NaN included. *)
Definition season_of (m : option Z) : string :=
  if month_in m [12; 1; 2]%Z then "Winter"
  else if month_in m [3; 4; 5]%Z then "Spring"
  else if month_in m [6; 7; 8]%Z then "Summer"
  else "Fall".

(** Sum and arithmetic mean. *)
Definition qsum (l : list Qc) : Qc := foldr Qcplus 0 l.
Definition mean (l : list Qc) : Qc := qsum l / Qc_of_Z (Z.of_nat (length l)).

(** [Series.mean()] and [Series.sum()] skip missing values; the mean of
    no value is missing, the sum of no value is 0. *)
Definition dropna (l : list (option Qc)) : list Qc := omap id l.
Definition mean_skipna (l : list (option Qc)) : option Qc :=
  match dropna l with
  | [] => None
  | v :: vs => Some (mean (v :: vs))
  end.
Definition sum_skipna (l : list (option Qc)) : Qc := qsum (dropna l).

(** [sorted(...)] on the entries of a directory: by path, that is by
    name, since all share the directory. *)
Definition entry_le (e1 e2 : string * csv) : Prop := String.le e1.1 e2.1.
#[global] Instance entry_le_dec : RelDecision entry_le.
Proof. intros e1 e2. unfold entry_le. apply _. Defined.
Definition sorted_entries (d : directory) : directory := merge_sort entry_le d.

(** [s.endswith(suffix)]. *)
Definition endswith (s suffix : string) : bool :=
  String.prefix (String.rev suffix) (String.rev s).

(** [glob.glob(os.path.join(DATA_DIR, "madrid_*.csv"))]. *)
Definition matches_madrid_csv (name : string) : bool :=
  String.prefix "madrid_" name
  && endswith (String.substring 7 (String.length name - 7) name) ".csv".
Definition glob_madrid (d : directory) : directory :=
  filter (λ e, matches_madrid_csv e.1) d.

(** [pd.read_csv(os.path.join(DATA_DIR, name))] for a fixed name. *)
Fixpoint read_csv (DATA_DIR : directory) (name : string) : result csv :=
  match DATA_DIR with
  | [] => Raise (FileNotFoundError ("VDS2425_Madrid/" +:+ name))
  | (n, df) :: d => if decide (n = name) then Ok df else read_csv d name
  end.

(** [groupby(keys).mean()]: one line per distinct key, in ascending
    order of the keys, with the mean of the values of that key. *)
Section groupby.
Context {K : Type} `{EqDecision K} (le : relation K) `{!RelDecision le}.

Definition group_keys (kv : list (K * Qc)) : list K :=
  merge_sort le (remove_dups (kv.*1)).
Definition group_values (k : K) (kv : list (K * Qc)) : list Qc :=
  (filter (λ p, p.1 = k) kv).*2.
Definition groupby_mean (kv : list (K * Qc)) : list (K * Qc) :=
  (λ k, (k, mean (group_values k kv))) <$> group_keys kv.
End groupby.

(** [rank(ascending=False, method='dense')]: the values are put in
    descending order and walked through; the rank starts at 1 and goes
    up by one each time the value changes. Equal values are neighbours
    in that order and share a rank, which is the one read back for an
    entry. *)
Fixpoint dense_walk (prev : Qc) (rk : nat) (l : list Qc) : list (Qc * nat) :=
  match l with
  | [] => []
  | v :: l' =>
      let rk' := if decide (v = prev) then rk else S rk in
      (v, rk') :: dense_walk v rk' l'
  end.

Definition dense_ranks (vals : list Qc) : list (Qc * nat) :=
  match merge_sort (flip Qcle) vals with
  | [] => []
  | v :: l => (v, 1%nat) :: dense_walk v 1 l
  end.

Fixpoint rank_lookup (v : Qc) (l : list (Qc * nat)) : nat :=
  match l with
  | [] => O
  | (w, k) :: l' => if decide (w = v) then k else rank_lookup v l'
  end.

Definition rank_dense_desc (vals : list Qc) (v : Qc) : nat :=
  rank_lookup v (dense_ranks vals).

(** ** [seasonal_pollution_chart]: seasonal means and their ranks *)

Module Seasonal.

(** A line of the long form made by [melt]. *)
Record long_row := LongRow {
  l_year : option Z;
  l_season : string;
  l_pollutant : string;
  l_value : option Qc
}.

(** A line of [data_avg]. *)
Record avg_row := AvgRow {
  year : Z;
  season : string;
  pollutant : string;
  avg_value : Qc;
  rank : nat
}.

#[global] Instance long_row_eq_dec : EqDecision long_row.
Proof. solve_decision. Defined.
#[global] Instance avg_row_eq_dec : EqDecision avg_row.
Proof. solve_decision. Defined.

(** The columns left out of [value_vars]. *)
Definition not_melted : list string :=
  ["date"; "station_id"; "month"; "year"; "season"].

Definition value_vars (df : csv) : list string :=
  filter (λ c, c ∉ not_melted) (columns df).

(** The body of the loop over the files: derive year, month and
    season, melt, drop the lines without a value. *)
Definition df_melt (df : csv) : result (list long_row) :=
  date ← read_csv_parse_dates df;
  dated ← dt date;
  let melted :=
    c ← value_vars df;
    (λ tr : timestamp * row,
       LongRow (dt_year tr.1) (season_of (dt_month tr.1)) c
               (cell (columns df) c tr.2)) <$> dated in
  Ok (filter (λ l, is_Some (l_value l)) melted).

(** The keys of [groupby(['year', 'season', 'pollutant'])], compared
    as tuples. *)
Abbreviation key := (Z * string * string)%type.
Definition key_le (k1 k2 : key) : Prop :=
  let '(y1, s1, p1) := k1 in
  let '(y2, s2, p2) := k2 in
  (y1 < y2)%Z ∨ (y1 = y2 ∧ (String.ltb s1 s2 ∨ (s1 = s2 ∧ String.le p1 p2))).
#[global] Instance key_le_dec : RelDecision key_le.
Proof. intros [[??]?] [[??]?]. unfold key_le. apply _. Defined.

(** The lines that enter a group: [groupby] drops those whose key has
    a missing component, here the year of a line without a date. *)
Definition keyed (data : list long_row) : list (key * Qc) :=
  omap (λ l, y ← l_year l; v ← l_value l;
             Some ((y, l_season l, l_pollutant l), v)) data.

Definition same_group (r r' : key * Qc) : Prop :=
  r'.1.1.1 = r.1.1.1 ∧ r'.1.2 = r.1.2.

(** [data_avg] with its [rank] column: the rank of a line among the
    lines of its year and pollutant. *)
Definition add_rank (means : list (key * Qc)) : list avg_row :=
  (λ r, AvgRow r.1.1.1 r.1.1.2 r.1.2 r.2
          (rank_dense_desc ((filter (same_group r) means).*2) r.2))
  <$> means.

(** The aggregation of [seasonal_pollution_chart], from the glob to
    [data_avg] with its ranks; the figure is drawn from this table. *)
Definition seasonal_pollution_chart (DATA_DIR : directory)
    : result (list avg_row) :=
  let files := sorted_entries (glob_madrid DATA_DIR) in
  if decide (files = []) then
    Raise (FileNotFoundError
             "No CSV files found at: VDS2425_Madrid/madrid_*.csv")
  else
    df_list ← for_each (λ f, df_melt f.2) files;
    let data := concat df_list in
    let data_avg := groupby_mean key_le (keyed data) in
    Ok (add_rank data_avg).

(** The lines of one file that enter the groups, by column. *)
Definition melt_key (cols : list string) (c : string)
    (tr : timestamp * row) : option (key * Qc) :=
  y ← dt_year tr.1; v ← cell cols c tr.2;
  Some ((y, season_of (dt_month tr.1), c), v).

(** The lines of one file that enter the groups. *)
Definition file_keyed (df : csv) : list (key * Qc) :=
  value_vars df ≫= λ c, omap (melt_key (columns df) c) (parsed_dates df).

(** What it is for the [rank] column to be a dense ranking, in
    descending order of [avg_value], of the lines of one group. *)
Record dense_ranking (group : list avg_row) : Prop := DenseRanking {
  highest_first : ∀ r, r ∈ group →
    (∀ r', r' ∈ group → avg_value r' ≤ avg_value r) → rank r = 1%nat;
  ties_share : ∀ r r', r ∈ group → r' ∈ group →
    avg_value r = avg_value r' → rank r = rank r';
  descending : ∀ r r', r ∈ group → r' ∈ group →
    avg_value r' < avg_value r → (rank r < rank r')%nat;
  none_skipped : ∀ r k, r ∈ group → rank r = S k → (1 ≤ k)%nat →
    ∃ r', r' ∈ group ∧ rank r' = k;
  next_distinct : ∀ r r', r ∈ group → r' ∈ group →
    avg_value r' < avg_value r →
    (∀ r'', r'' ∈ group →
       ¬ (avg_value r' < avg_value r'' ∧ avg_value r'' < avg_value r)) →
    rank r' = S (rank r)
}.

Definition in_group (y : Z) (p : string) (r : avg_row) : Prop :=
  year r = y ∧ pollutant r = p.
#[global] Instance in_group_dec y p r : Decision (in_group y p r).
Proof. unfold in_group. apply _. Defined.

Definition group_means (y : Z) (p : string) (means : list (key * Qc))
    : list Qc :=
  (filter (λ m : key * Qc, m.1.1.1 = y ∧ m.1.2 = p) means).*2.

End Seasonal.

(** ** [seasonal_pollution_pie_chart]: the share of each season *)

(** The outcome of a float division that may divide by zero. *)
Inductive float :=
  | Num (x : Qc)
  | Inf (negative : bool)
  | NaN.

#[global] Instance float_eq_dec : EqDecision float.
Proof. solve_decision. Defined.

(** [x / s] on a column with missing values: a missing [x] stays
    missing, [0 / 0] is NaN and any other [x / 0] is infinite. *)
Definition float_div (x : option Qc) (s : Qc) : float :=
  match x with
  | None => NaN
  | Some m =>
      if decide (s = 0) then
        if decide (m = 0) then NaN else Inf (bool_decide (m < 0))
      else Num (m / s)
  end.

Definition finite (x : float) : option Qc :=
  match x with Num v => Some v | Inf _ | NaN => None end.

Module SeasonalShare.

(** A line of [season_means]. *)
Record share_row := ShareRow {
  season : string;
  season_mean : option Qc;
  percent : float
}.

#[global] Instance share_row_eq_dec : EqDecision share_row.
Proof. solve_decision. Defined.

Definition seasons : list string := ["Winter"; "Spring"; "Summer"; "Fall"].

Definition warning (pollutant path : string) : string :=
  "⚠️ Pollutant '" +:+ pollutant +:+ "' not found in " +:+ path
  +:+ ". Skipping...".

Definition path_of (name : string) : string := "VDS2425_Madrid/" +:+ name.

(** [df[['season', pollutant]].dropna()]: the season and the value of
    the lines that have a value. The season is never missing. *)
Definition season_values (pollutant : string) (df : csv)
    (dated : list (timestamp * row)) : list (string * Qc) :=
  omap (λ tr : timestamp * row,
          v ← cell (columns df) pollutant tr.2;
          Some (season_of (dt_month tr.1), v)) dated.

(** The loop over the files. It returns what was printed and either
    [df_list] or the exception that ended the loop. *)
Fixpoint load (pollutant : string) (files : directory)
    : list string * result (list (list (string * Qc))) :=
  match files with
  | [] => ([], Ok [])
  | (name, df) :: files' =>
      match read_csv_parse_dates df with
      | Raise e => ([], Raise e)
      | Ok date =>
          if decide (pollutant ∉ columns df) then
            let '(out, r) := load pollutant files' in
            (warning pollutant (path_of name) :: out, r)
          else
            match dt date with
            | Raise e => ([], Raise e)
            | Ok dated =>
                let '(out, r) := load pollutant files' in
                (out,
                 df_list ← r;
                 Ok (season_values pollutant df dated :: df_list))
            end
      end
  end.

(** [groupby('season').mean()] then [reindex] on the four seasons, and
    the [percent] column. *)
Definition season_means (all_data : list (string * Qc)) : list share_row :=
  let by_season := groupby_mean String.le all_data in
  let reindexed :=
    (λ s, (s, i ← col_index s (by_season.*1); by_season.*2 !! i))
    <$> seasons in
  let s := sum_skipna (reindexed.*2) in
  (λ sm : string * option Qc, ShareRow sm.1 sm.2 (float_div sm.2 s)) <$> reindexed.

(** The aggregation of [seasonal_pollution_pie_chart], from the glob
    to [season_means] with its [percent] column, and what it prints. *)
Definition seasonal_pollution_pie_chart (pollutant : string)
    (DATA_DIR : directory) : list string * result (list share_row) :=
  let '(out, r) := load pollutant (sorted_entries (glob_madrid DATA_DIR)) in
  (out,
   df_list ← r;
   if decide (df_list = []) then
     Raise (ValueError ("No data found for pollutant '" +:+ pollutant +:+ "'"))
   else Ok (season_means (concat df_list))).

(** The file has the column of the pollutant. *)
Definition has_column (pollutant : string) (f : string * csv) : Prop :=
  pollutant ∈ columns f.2.
#[global] Instance has_column_dec pollutant f : Decision (has_column pollutant f).
Proof. unfold has_column. apply _. Defined.

End SeasonalShare.

(** ** [dataPreparation.py]: the annual summary *)

(** [s.split(sep)] for a one-character separator. *)
Fixpoint split (sep : ascii) (s : string) : list string :=
  match s with
  | EmptyString => [EmptyString]
  | String c s' =>
      if decide (c = sep) then EmptyString :: split sep s'
      else match split sep s' with
           | [] => [String c EmptyString]
           | w :: ws => String c w :: ws
           end
  end.

(** [int(s)] on ASCII text: blanks around an optional sign and at least
    one decimal digit. *)
Fixpoint lstrip (s : string) : string :=
  match s with
  | String c s' => if Ascii.is_space c then lstrip s' else s
  | EmptyString => EmptyString
  end.
Definition strip (s : string) : string :=
  String.rev (lstrip (String.rev (lstrip s))).

Fixpoint digits (acc : Z) (s : string) : option Z :=
  match s with
  | EmptyString => Some acc
  | String c s' => d ← Ascii.is_nat c; digits (10 * acc + Z.of_nat d)%Z s'
  end.

Definition int (s : string) : result Z :=
  let invalid := Raise (ValueError "invalid literal for int() with base 10") in
  let '(negative, body) :=
    match strip s with
    | String "-"%char b => (true, b)
    | String "+"%char b => (false, b)
    | b => (false, b)
    end in
  match body with
  | EmptyString => invalid
  | _ => match digits 0 body with
         | Some n => Ok (if negative then - n else n)%Z
         | None => invalid
         end
  end.

(** A decimal digit. *)
Definition is_digit (c : ascii) : Prop := is_Some (Ascii.is_nat c).

Module Annual.

Definition pollutants : list string := ["NO_2"; "PM10"; "O_3"; "CO"; "SO_2"].

(** A line of the summary: [avg_row], the means of the tracked columns
    the file has, and the year. *)
Record avg_row := AvgRow {
  year : Z;
  means : list (string * option Qc)
}.

#[global] Instance avg_row_eq_dec : EqDecision avg_row.
Proof. solve_decision. Defined.

(** [int(file.split('_')[1].split('.')[0])]. *)
Definition declared_year (file : string) : result Z :=
  match split "_"%char file !! 1%nat with
  | None => Raise (IndexError "list index out of range")
  | Some part => int (default EmptyString (head (split "."%char part)))
  end.

(** [df[df['year'] == year]] after the coercing date parse. *)
Definition year_filter (year : Z) (df : csv) : list row :=
  filter (λ r, dt_year (to_datetime_coerce (r_date r)) = Some year) (rows df).

Definition valid_cols (df : csv) : list string :=
  filter (λ col, col ∈ columns df) pollutants.

(** The body of the loop: [None] when the file is passed over with
    [continue], the line appended to [annual_data] otherwise. *)
Definition annual_row (file : string) (df : csv) : result (option avg_row) :=
  if negb (endswith file ".csv") || bool_decide (file = "stations.csv") then
    Ok None
  else
    year ← declared_year file;
    if negb (has_date df) then Ok None
    else
      let kept := year_filter year df in
      if bool_decide (valid_cols df = []) || bool_decide (kept = []) then
        Ok None
      else
        Ok (Some (AvgRow year
              ((λ col, (col, mean_skipna (cell (columns df) col <$> kept)))
               <$> valid_cols df))).

(** The loop over the listed files, in the order given. *)
Fixpoint annual_data (files : directory) : result (list avg_row) :=
  match files with
  | [] => Ok []
  | (file, df) :: files' =>
      r ← annual_row file df;
      rest ← annual_data files';
      Ok (option_list r ++ rest)%list
  end.

Definition year_le (r1 r2 : avg_row) : Prop := (year r1 ≤ year r2)%Z.
#[global] Instance year_le_dec : RelDecision year_le.
Proof. intros r1 r2. unfold year_le. apply _. Defined.

(** [pd.DataFrame(annual_data).sort_values('year')]: without any line
    the frame has no [year] column to sort by. *)
Definition df_yearly (DATA_DIR : directory) : result (list avg_row) :=
  data ← annual_data (sorted_entries DATA_DIR);
  if decide (data = []) then Raise (KeyError "year")
  else Ok (merge_sort year_le data).

(** The line a file adds to [annual_data], if any. *)
Definition row_of (f : string * csv) : option avg_row :=
  match annual_row f.1 f.2 with
  | Ok r => r
  | Raise _ => None
  end.

End Annual.

(** ** [station_ranking_chart]: the stations ranked by pollutant *)

Module StationRanking.

(** A line of [stations.csv]: identifier and display name. *)
Record station := Station {
  id : option Qc;
  name : option string
}.

(** A line of [pollutant_avgs]. *)
Record avgs_row := AvgsRow {
  a_station : Qc;
  a_means : list (string * option Qc);
  a_name : string
}.

#[global] Instance station_eq_dec : EqDecision station.
Proof. solve_decision. Defined.
#[global] Instance avgs_row_eq_dec : EqDecision avgs_row.
Proof. solve_decision. Defined.

Definition selected_pollutants : list string := ["NO"; "NO_2"; "NOx"].

(** [str] of a station identifier. The identifiers of the data are
    integers and print as their digits; another number is printed as
    a fraction. *)
Definition str (x : Qc) : string :=
  if decide (Qden x = 1%positive) then pretty (Qnum x)
  else pretty (Qnum x) +:+ "/" +:+ pretty (Zpos (Qden x)).

(** [df[c]] raises on a column the table does not have. *)
Definition require_column (c : string) (df : csv) : result unit :=
  if decide (c ∈ columns df) then Ok () else Raise (KeyError c).

(** [groupby("station")[selected_pollutants].mean().reset_index()]:
    one line per station, in ascending order, lines without a station
    left out. *)
Definition station_means (df : csv) : list (Qc * list (string * option Qc)) :=
  let stations :=
    merge_sort Qcle (remove_dups (omap (cell (columns df) "station") (rows df))) in
  (λ s,
     let grp := filter (λ r, cell (columns df) "station" r = Some s) (rows df) in
     (s, (λ p, (p, mean_skipna (cell (columns df) p <$> grp)))
         <$> selected_pollutants))
  <$> stations.

(** [.merge(station_info, left_on="station", right_on="id",
    how="left")] and the [fillna] of the name: a line per matching
    line of [station_info], or one line without a name, which then
    gets the identifier as text. *)
Definition merge_names (station_info : list station)
    (sm : Qc * list (string * option Qc)) : list avgs_row :=
  match filter (λ i, id i = Some sm.1) station_info with
  | [] => [AvgsRow sm.1 sm.2 (str sm.1)]
  | matches => (λ i, AvgsRow sm.1 sm.2 (default (str sm.1) (name i))) <$> matches
  end.

Definition pollutant_avgs (pollution_data : csv) (station_info : list station)
    : result (list avgs_row) :=
  _ ← require_column "station" pollution_data;
  _ ← for_each (λ p, require_column p pollution_data) selected_pollutants;
  Ok (station_means pollution_data ≫= merge_names station_info).

Definition mean_of (pollutant : string) (r : avgs_row) : option Qc :=
  i ← col_index pollutant (a_means r).*1; mjoin ((a_means r).*2 !! i).

Definition value_ge (x y : string * Qc) : Prop := y.2 ≤ x.2.
#[global] Instance value_ge_dec : RelDecision value_ge.
Proof. intros x y. unfold value_ge. apply _. Defined.

(** [pollutant_avgs[["name", pollutant]].dropna().sort_values(
    by=pollutant, ascending=False)]. *)
Definition df_sorted (pollutant : string) (avgs : list avgs_row)
    : list (string * Qc) :=
  merge_sort value_ge
    (omap (λ r, v ← mean_of pollutant r; Some (a_name r, v)) avgs).

(** The three lists the bars are drawn from, one per pollutant. The
    measurements are those of [madrid_2018.csv]; [station_info] is
    what was read from [stations.csv]. *)
Definition station_ranking_chart (DATA_DIR : directory)
    (station_info : list station) : result (list (string * list (string * Qc))) :=
  pollution_data ← read_csv DATA_DIR "madrid_2018.csv";
  avgs ← pollutant_avgs pollution_data station_info;
  Ok ((λ p, (p, df_sorted p avgs)) <$> selected_pollutants).

(** The mean of one station for one pollutant, over its lines. *)
Definition station_mean (df : csv) (s : Qc) (p : string) : option Qc :=
  mean_skipna
    (cell (columns df) p
       <$> filter (λ r, cell (columns df) "station" r = Some s) (rows df)).

End StationRanking.

(** ** The figures drawn from the tables *)

(** [l.index(x)]: the first position of [x], or a [ValueError]. *)
Definition index (x : string) (l : list string) : result nat :=
  match col_index x l with
  | Some i => Ok i
  | None => Raise (ValueError ("'" +:+ x +:+ "' is not in list"))
  end.

Module SeasonalFigure.

(** A [go.Bar] trace of the seasonal figure. The years are kept as
    numbers; [astype(str)] makes them the labels of the axis. *)
Record bar := Bar {
  name : string;
  x : list Z;
  y : list Qc;
  customdata : list nat;
  text : list nat;
  visible : bool
}.

(** An entry of the dropdown: its label, and the [visible] list and
    the title it sets. *)
Record button := Button {
  label : string;
  args_visible : list bool;
  args_title : string
}.

Record figure := Figure {
  data : list bar;
  buttons : list button;
  active : nat
}.

#[global] Instance bar_eq_dec : EqDecision bar.
Proof. solve_decision. Defined.
#[global] Instance button_eq_dec : EqDecision button.
Proof. solve_decision. Defined.
#[global] Instance figure_eq_dec : EqDecision figure.
Proof. solve_decision. Defined.

(** [sorted(data_avg['pollutant'].unique())]. *)
Definition pollutants (data_avg : list Seasonal.avg_row) : list string :=
  merge_sort String.le (remove_dups (Seasonal.pollutant <$> data_avg)).

Definition seasons : list string := ["Winter"; "Spring"; "Summer"; "Fall"].

(** The lines of one pollutant and season, [df_ps]. *)
Definition df_ps (data_avg : list Seasonal.avg_row) (pollutant season : string)
    : list Seasonal.avg_row :=
  filter (λ r, Seasonal.season r = season)
    (filter (λ r, Seasonal.pollutant r = pollutant) data_avg).

(** The trace added for one pollutant and season. *)
Definition trace (data_avg : list Seasonal.avg_row) (pollutant season : string)
    : bar :=
  let rows := df_ps data_avg pollutant season in
  Bar season (Seasonal.year <$> rows) (Seasonal.avg_value <$> rows)
      (Seasonal.rank <$> rows) (Seasonal.rank <$> rows)
      (bool_decide (pollutant = "NO_2")).

(** The traces, in the order of the two nested loops. *)
Definition traces (data_avg : list Seasonal.avg_row) : list bar :=
  pollutant ← pollutants data_avg; trace data_avg pollutant <$> seasons.

(** The [visible] list of the button of one pollutant: a flag per
    pollutant and season, in the order of the traces. *)
Definition visible_of (pollutants : list string) (pollutant : string)
    : list bool :=
  pj ← pollutants; (λ _, bool_decide (pj = pollutant)) <$> seasons.

Definition buttons_of (data_avg : list Seasonal.avg_row) : list button :=
  (λ pollutant,
     Button pollutant (visible_of (pollutants data_avg) pollutant)
            ("Seasonal Pollution Levels by Year: " +:+ pollutant))
  <$> pollutants data_avg.

(** The figure made from [data_avg]: [pollutants.index('NO_2')] raises
    when the table has no line for [NO_2]. *)
Definition fig (data_avg : list Seasonal.avg_row) : result figure :=
  active ← index "NO_2" (pollutants data_avg);
  Ok (Figure (traces data_avg) (buttons_of data_avg) active).

(** [seasonal_pollution_chart] as a whole: the table, then the figure. *)
Definition seasonal_pollution_chart (DATA_DIR : directory) : result figure :=
  data_avg ← Seasonal.seasonal_pollution_chart DATA_DIR; fig data_avg.

(** The traces a [visible] list shows. *)
Definition shown (visible : list bool) (data : list bar) : list bar :=
  (filter (λ vb : bool * bar, vb.1 = true) (zip visible data)).*2.

(** The bars of a trace: each with the season of the trace, its year,
    its height and the rank written on it. *)
Definition points (t : bar) : list (string * Z * Qc * nat) :=
  (λ p : Z * Qc * nat, (name t, p.1.1, p.1.2, p.2))
  <$> zip (zip (x t) (y t)) (text t).

End SeasonalFigure.

Module StationFigure.

(** A trace of the station figure: the bars of one pollutant ([x] the
    means, [y] the names, a colour per bar), or one of the dummy traces
    that make the legend of the tiers. *)
Inductive trace :=
  | Bars (x : list Qc) (y : list string) (marker_color : list string)
         (visible : bool)
  | Tier (marker_color name : string).

Record button := Button {
  label : string;
  args_visible : list bool;
  args_title : string
}.

Record figure := Figure {
  data : list trace;
  buttons : list button;
  active : nat
}.

#[global] Instance trace_eq_dec : EqDecision trace.
Proof. solve_decision. Defined.
#[global] Instance button_eq_dec : EqDecision button.
Proof. solve_decision. Defined.
#[global] Instance figure_eq_dec : EqDecision figure.
Proof. solve_decision. Defined.

(** The colour of a bar, by the tier of its value. *)
Definition color (val : Qc) : string :=
  if decide (val < Qc_of_Z 20) then "blue"
  else if decide (val < Qc_of_Z 40) then "orange"
  else "red".

(** [colors], along [df_sorted]. *)
Definition colors (df_sorted : list (string * Qc)) : list string :=
  (λ nv, color nv.2) <$> df_sorted.

(** The trace added for one pollutant. *)
Definition bars (pollutant : string) (df_sorted : list (string * Qc)) : trace :=
  Bars df_sorted.*2 df_sorted.*1 (colors df_sorted)
       (bool_decide (pollutant = "NO_2")).

Definition tiers : list trace :=
  [Tier "red" "High pollution"; Tier "orange" "Medium pollution";
   Tier "blue" "Low pollution"].

(** [visibility] of the button number [i]. *)
Definition visibility (i : nat) : list bool :=
  <[i := true]>
    (replicate (length StationRanking.selected_pollutants) false
     ++ replicate 3 true)%list.

Definition buttons_of : list button :=
  imap (λ i pollutant,
          Button pollutant (visibility i)
                 ("Average " +:+ pollutant +:+ " Pollution by Station (2018)"))
       StationRanking.selected_pollutants.

(** The figure made from the three lists. *)
Definition fig (lists : list (string * list (string * Qc))) : result figure :=
  let data := (((λ pl, bars pl.1 pl.2) <$> lists) ++ tiers)%list in
  active ← index "NO_2" StationRanking.selected_pollutants;
  Ok (Figure data buttons_of active).

(** [station_ranking_chart] as a whole. *)
Definition station_ranking_chart (DATA_DIR : directory)
    (station_info : list StationRanking.station) : result figure :=
  lists ← StationRanking.station_ranking_chart DATA_DIR station_info;
  fig lists.

(** Whether a trace is shown at first: a trace without [visible] is. *)
Definition visible (t : trace) : bool :=
  match t with
  | Bars _ _ _ v => v
  | Tier _ _ => true
  end.

(** The traces a [visible] list shows. *)
Definition shown (visible : list bool) (data : list trace) : list trace :=
  (filter (λ vt : bool * trace, vt.1 = true) (zip visible data)).*2.

End StationFigure.

(** ** [pollution_trend_chart]: the lines of the annual summary *)

Module Trend.

Record scatter := Scatter {
  name : string;
  x : list Z;
  y : list (option Qc);
  line_color : string
}.

#[global] Instance scatter_eq_dec : EqDecision scatter.
Proof. solve_decision. Defined.

Definition pollutants : list string := ["NO_2"; "PM10"; "O_3"].
Definition colors : list string := ["red"; "blue"; "green"].

(** The value of a line of the summary in a column; missing when the
    file of that year did not have the column. *)
Definition value (pol : string) (r : Annual.avg_row) : option Qc :=
  i ← col_index pol (Annual.means r).*1; mjoin ((Annual.means r).*2 !! i).

(** [df[pol]] on the summary: the frame has the columns that some line
    has; another name raises. *)
Definition column (pol : string) (df : list Annual.avg_row)
    : result (list (option Qc)) :=
  if decide (Exists (λ r, pol ∈ (Annual.means r).*1) df)
  then Ok (value pol <$> df)
  else Raise (KeyError pol).

(** [Series.diff()]: each entry minus the one before; the first has
    none before, and a difference with a missing value is missing. *)
Fixpoint diff_from (prev : option Qc) (l : list (option Qc))
    : list (option Qc) :=
  match l with
  | [] => []
  | v :: l' => (a ← v; b ← prev; Some (a - b)) :: diff_from v l'
  end.
Definition diff (l : list (option Qc)) : list (option Qc) := diff_from None l.

(** The columns [delta_...] added to the frame. *)
Definition deltas (df : list Annual.avg_row)
    : result (list (string * list (option Qc))) :=
  for_each (λ pol, col ← column pol df; Ok ("delta_" +:+ pol, diff col))
           pollutants.

(** The traces of the figure, from the summary as read back from
    [annual_pollution_2001_2018.csv]. *)
Definition pollution_trend_chart (df : list Annual.avg_row)
    : result (list scatter) :=
  _ ← deltas df;
  for_each (λ pc : string * string,
              col ← column pc.1 df;
              Ok (Scatter pc.1 (Annual.year <$> df) col pc.2))
           (zip pollutants colors).

End Trend.

(** ** Sample directories *)

Module Examples.

Definition qz (n : Z) : option Qc := Some (Qc_of_Z n).
Definition qq (n : Z) (d : positive) : option Qc := Some (Q2Qc (n # d)).

(** A year of measurements, with one line without a date and one dated
    in the following year. *)
Definition madrid_2001 : csv :=
  Csv true ["NO_2"; "O_3"]
    [Row (DateOK 2001 1) [qz 10; qz 4];
     Row (DateOK 2001 2) [qz 30; None];
     Row (DateOK 2001 4) [qz 40; None];
     Row (DateOK 2001 7) [qz 20; qz 8];
     Row (DateOK 2001 10) [qz 5; None];
     Row DateNA [qz 100; None];
     Row (DateOK 2002 1) [qz 50; None]].

Definition madrid_2002 : csv :=
  Csv true ["CO"]
    [Row (DateOK 2002 4) [qz 1]; Row (DateOK 2002 5) [qz 2]].

Definition DATA_DIR : directory :=
  [("madrid_2002.csv", madrid_2002);
   ("stations.csv", Csv false ["id"] []);
   ("madrid_2001.csv", madrid_2001)].

(** The same directory, listed in another order. *)
Definition DATA_DIR_relisted : directory :=
  [("madrid_2001.csv", madrid_2001);
   ("madrid_2002.csv", madrid_2002);
   ("stations.csv", Csv false ["id"] [])].


Definition data_avg : list Seasonal.avg_row :=
  [Seasonal.AvgRow 2001 "Fall" "NO_2" (Qc_of_Z 5) 3;
   Seasonal.AvgRow 2001 "Spring" "NO_2" (Qc_of_Z 40) 1;
   Seasonal.AvgRow 2001 "Summer" "NO_2" (Qc_of_Z 20) 2;
   Seasonal.AvgRow 2001 "Summer" "O_3" (Qc_of_Z 8) 1;
   Seasonal.AvgRow 2001 "Winter" "NO_2" (Qc_of_Z 20) 2;
   Seasonal.AvgRow 2001 "Winter" "O_3" (Qc_of_Z 4) 2;
   Seasonal.AvgRow 2002 "Spring" "CO" (Q2Qc (3 # 2)) 1;
   Seasonal.AvgRow 2002 "Winter" "NO_2" (Qc_of_Z 50) 1].

Definition skipped_2002 : list string :=
  [SeasonalShare.warning "NO_2" "VDS2425_Madrid/madrid_2002.csv"].

Definition shares : list SeasonalShare.share_row :=
  [SeasonalShare.ShareRow "Winter" (qz 30) (Num (Q2Qc (4 # 19)));
   SeasonalShare.ShareRow "Spring" (qz 40) (Num (Q2Qc (16 # 57)));
   SeasonalShare.ShareRow "Summer" (qz 20) (Num (Q2Qc (8 # 57)));
   SeasonalShare.ShareRow "Fall" (qq 105 2) (Num (Q2Qc (7 # 19)))].


Definition yearly : list Annual.avg_row :=
  [Annual.AvgRow 2001 [("NO_2", qz 21); ("O_3", qz 6)];
   Annual.AvgRow 2002 [("CO", qq 3 2)]].

(** One file whose only reading is 0. *)
Definition zero_reading : directory :=
  [("madrid_2001.csv", Csv true ["NO_2"] [Row (DateOK 2001 1) [qz 0]])].

Definition zero_shares : list SeasonalShare.share_row :=
  [SeasonalShare.ShareRow "Winter" (qz 0) NaN;
   SeasonalShare.ShareRow "Spring" None NaN;
   SeasonalShare.ShareRow "Summer" None NaN;
   SeasonalShare.ShareRow "Fall" None NaN].

(** Two files whose names declare the same year. *)
Definition same_year : directory :=
  [("madrid_2001.csv", madrid_2001); ("other_2001.csv", madrid_2001)].

Definition same_year_yearly : list Annual.avg_row :=
  [Annual.AvgRow 2001 [("NO_2", qz 21); ("O_3", qz 6)];
   Annual.AvgRow 2001 [("NO_2", qz 21); ("O_3", qz 6)]].




(** The measurements of 2018 of two stations, the second without any
    [NOx] value, and the station table. *)
Definition madrid_2018 : csv :=
  Csv true ["NO"; "NO_2"; "NOx"; "station"]
    [Row (DateOK 2018 1) [qz 5; qz 30; qz 40; qz 28079004];
     Row (DateOK 2018 1) [qz 2; qz 10; None; qz 28079008]].

Definition DATA_DIR_2018 : directory := [("madrid_2018.csv", madrid_2018)].

Definition stations : list StationRanking.station :=
  [StationRanking.Station (qz 28079004) (Some "A");
   StationRanking.Station (qz 28079008) (Some "B")].

Definition avgs_2018 : list StationRanking.avgs_row :=
  [StationRanking.AvgsRow (Qc_of_Z 28079004)
     [("NO", qz 5); ("NO_2", qz 30); ("NOx", qz 40)] "A";
   StationRanking.AvgsRow (Qc_of_Z 28079008)
     [("NO", qz 2); ("NO_2", qz 10); ("NOx", None)] "B"].

Definition rankings_2018 : list (string * list (string * Qc)) :=
  [("NO", [("A", Qc_of_Z 5); ("B", Qc_of_Z 2)]);
   ("NO_2", [("A", Qc_of_Z 30); ("B", Qc_of_Z 10)]);
   ("NOx", [("A", Qc_of_Z 40)])].

Definition data_avg_2018 : list Seasonal.avg_row :=
  [Seasonal.AvgRow 2018 "Winter" "NO" (Q2Qc (7 # 2)) 1;
   Seasonal.AvgRow 2018 "Winter" "NO_2" (Qc_of_Z 20) 1;
   Seasonal.AvgRow 2018 "Winter" "NOx" (Qc_of_Z 40) 1;
   Seasonal.AvgRow 2018 "Winter" "station" (Qc_of_Z 28079006) 1].

End Examples.

(** ** Further sample data *)

Module Samples.
Import Examples.

(** A table with a line for each of two pollutants, and the figure
    drawn from it. *)
Definition two_pollutants : list Seasonal.avg_row :=
  [Seasonal.AvgRow 2001 "Summer" "O_3" (Qc_of_Z 8) 1;
   Seasonal.AvgRow 2001 "Winter" "NO_2" (Qc_of_Z 20) 1].

Definition two_pollutants_fig : SeasonalFigure.figure :=
  SeasonalFigure.Figure
    [SeasonalFigure.Bar "Winter" [2001%Z] [Qc_of_Z 20] [1%nat] [1%nat] true;
     SeasonalFigure.Bar "Spring" [] [] [] [] true;
     SeasonalFigure.Bar "Summer" [] [] [] [] true;
     SeasonalFigure.Bar "Fall" [] [] [] [] true;
     SeasonalFigure.Bar "Winter" [] [] [] [] false;
     SeasonalFigure.Bar "Spring" [] [] [] [] false;
     SeasonalFigure.Bar "Summer" [2001%Z] [Qc_of_Z 8] [1%nat] [1%nat] false;
     SeasonalFigure.Bar "Fall" [] [] [] [] false]
    [SeasonalFigure.Button "NO_2"
       [true; true; true; true; false; false; false; false]
       "Seasonal Pollution Levels by Year: NO_2";
     SeasonalFigure.Button "O_3"
       [false; false; false; false; true; true; true; true]
       "Seasonal Pollution Levels by Year: O_3"]
    0.

(** A directory with a file whose name has no underscore. *)
Definition with_notes : directory :=
  [("madrid_2001.csv", madrid_2001); ("notes.csv", Csv true ["NO_2"] [])].


(** Two years with the columns of the trend chart, the second without
    [O_3]; their summary and the lines of the chart. *)
Definition trend_dir : directory :=
  [("madrid_2002.csv",
    Csv true ["NO_2"; "PM10"] [Row (DateOK 2002 3) [qz 12; qz 18]]);
   ("madrid_2001.csv",
    Csv true ["NO_2"; "PM10"; "O_3"]
      [Row (DateOK 2001 1) [qz 10; qz 20; qz 30];
       Row (DateOK 2001 7) [qz 30; qz 40; None]])].

Definition trend_yearly : list Annual.avg_row :=
  [Annual.AvgRow 2001 [("NO_2", qz 20); ("PM10", qz 30); ("O_3", qz 30)];
   Annual.AvgRow 2002 [("NO_2", qz 12); ("PM10", qz 18)]].

Definition trend_lines : list Trend.scatter :=
  [Trend.Scatter "NO_2" [2001; 2002]%Z [qz 20; qz 12] "red";
   Trend.Scatter "PM10" [2001; 2002]%Z [qz 30; qz 18] "blue";
   Trend.Scatter "O_3" [2001; 2002]%Z [qz 30; None] "green"].

(** The station figure of [DATA_DIR_2018]. *)
Definition fig_2018 : StationFigure.figure :=
  StationFigure.Figure
    [StationFigure.Bars [Qc_of_Z 5; Qc_of_Z 2] ["A"; "B"] ["blue"; "blue"]
       false;
     StationFigure.Bars [Qc_of_Z 30; Qc_of_Z 10] ["A"; "B"]
       ["orange"; "blue"] true;
     StationFigure.Bars [Qc_of_Z 40] ["A"] ["red"] false;
     StationFigure.Tier "red" "High pollution";
     StationFigure.Tier "orange" "Medium pollution";
     StationFigure.Tier "blue" "Low pollution"]
    [StationFigure.Button "NO" [true; false; false; true; true; true]
       "Average NO Pollution by Station (2018)";
     StationFigure.Button "NO_2" [false; true; false; true; true; true]
       "Average NO_2 Pollution by Station (2018)";
     StationFigure.Button "NOx" [false; false; true; true; true; true]
       "Average NOx Pollution by Station (2018)"]
    1.

End Samples.

(** * Properties *)

(** ** Loops and sorted listings *)




Lemma elem_of_sorted_entries e d : e ∈ sorted_entries d ↔ e ∈ d.
Proof. unfold sorted_entries. by rewrite merge_sort_Permutation. Qed.

#[global] Instance entry_le_trans : Transitive entry_le.
Proof. intros x y z. unfold entry_le. apply transitivity. Qed.
#[global] Instance entry_le_total : Total entry_le.
Proof. intros x y. unfold entry_le. apply (total String.le). Qed.

Lemma sorted_entries_sorted d : StronglySorted entry_le (sorted_entries d).
Proof. apply StronglySorted_merge_sort; apply _. Qed.


Lemma unique_names_elem d name df df' :
  unique_names d → (name, df) ∈ d → (name, df') ∈ d → df = df'.
Proof.
  unfold unique_names. induction d as [|[n c] d IH]; simpl.
  { intros _ Hin. by apply elem_of_nil in Hin. }
  intros [Hn Hd]%NoDup_cons [Heq|Hin]%elem_of_cons [Heq'|Hin']%elem_of_cons.
  - congruence.
  - inversion Heq; subst. destruct Hn.
    by apply (list_elem_of_fmap_2 fst) in Hin'.
  - inversion Heq'; subst. destruct Hn.
    by apply (list_elem_of_fmap_2 fst) in Hin.
  - by apply IH.
Qed.

(** The sorted listing is the only sorted arrangement of the entries:
    whatever order the system lists a directory in, [sorted] gives the
    same list. *)
Lemma sorted_entries_unique d l :
  unique_names d → l ≡ₚ d → StronglySorted entry_le l → sorted_entries d = l.
Proof.
  intros Hd Hp Hs.
  apply (StronglySorted_unique_strong entry_le);
    [|apply sorted_entries_sorted|done|].
  - intros [n1 c1] [n2 c2] Hin1 Hin2 H12 H21. unfold entry_le in *. simpl in *.
    assert (n1 = n2) as -> by by apply (anti_symm String.le).
    f_equal. apply (unique_names_elem d n2); [done| |].
    + by apply elem_of_sorted_entries.
    + by rewrite <-Hp.
  - unfold sorted_entries. by rewrite merge_sort_Permutation.
Qed.

Lemma sorted_entries_Permutation d1 d2 :
  unique_names d1 → d1 ≡ₚ d2 → sorted_entries d1 = sorted_entries d2.
Proof.
  intros Hd Hp. symmetry. apply sorted_entries_unique.
  - unfold unique_names. by rewrite <-Hp.
  - unfold sorted_entries. by rewrite merge_sort_Permutation.
  - apply sorted_entries_sorted.
Qed.



(** ** Dense ranks *)

Section dense_rank.

Implicit Types (v w prev : Qc) (k rk : nat) (l vals : list Qc).

#[local] Instance Qcge_total : Total (flip Qcle).
Proof. intros x y. unfold flip. destruct (total Qcle x y); auto. Qed.
#[local] Instance Qcge_trans : Transitive (flip Qcle).
Proof. intros x y z ? ?. unfold flip in *. by etrans. Qed.

Lemma dense_walk_fst prev rk l : (dense_walk prev rk l).*1 = l.
Proof.
  revert prev rk. induction l as [|v0 l IH]; intros; simpl; [done|].
  by rewrite IH.
Qed.

(** The walk never goes below its starting rank, and stays on it
    exactly while the value is the one it started from. *)
Lemma dense_walk_start prev rk l v k :
  StronglySorted (flip Qcle) (prev :: l) →
  (v, k) ∈ dense_walk prev rk l →
  (rk ≤ k)%nat ∧ (k = rk ↔ v = prev).
Proof.
  revert prev rk. induction l as [|v0 l IH]; intros prev rk Hs Hin; simpl in *.
  { by apply elem_of_nil in Hin. }
  apply StronglySorted_inv in Hs as [Hs Hprev].
  apply Forall_cons_1 in Hprev as [Hv0 Hprev].
  unfold flip in Hv0.
  apply elem_of_cons in Hin as [Heq|Hin].
  - inversion Heq; subst. case_decide; split; try lia; split; try done; lia.
  - assert (v ≤ v0) as Hv.
    { apply StronglySorted_inv in Hs as [_ Hall].
      rewrite Forall_forall in Hall. apply Hall.
      rewrite <-(dense_walk_fst v0 (if decide (v0 = prev) then rk else S rk) l).
      apply (list_elem_of_fmap_2 fst) in Hin. exact Hin. }
    apply IH in Hin as [Hle Hiff]; [|done].
    case_decide as Hd; subst.
    + done.
    + split; [lia|]. split.
      * intros ->. lia.
      * intros ->. exfalso. apply Hd. by apply Qcle_antisym.
Qed.

Lemma dense_walk_bound prev rk l v k :
  StronglySorted (flip Qcle) (prev :: l) →
  (v, k) ∈ dense_walk prev rk l → v ≤ prev.
Proof.
  intros Hs Hin. apply StronglySorted_inv in Hs as [_ Hall].
  rewrite Forall_forall in Hall. apply Hall.
  rewrite <-(dense_walk_fst prev rk l).
  apply (list_elem_of_fmap_2 fst) in Hin. exact Hin.
Qed.

(** Along the walk a smaller value has a larger rank, and conversely. *)
Lemma dense_walk_order prev rk l v k v' k' :
  StronglySorted (flip Qcle) (prev :: l) →
  (v, k) ∈ dense_walk prev rk l → (v', k') ∈ dense_walk prev rk l →
  v' < v ↔ (k < k')%nat.
Proof.
  revert prev rk. induction l as [|v0 l IH]; intros prev rk Hs Hin Hin'.
  { by apply elem_of_nil in Hin. }
  simpl in Hin, Hin'.
  apply StronglySorted_inv in Hs as [Hs _].
  set (rk' := if decide (v0 = prev) then rk else S rk) in *.
  apply elem_of_cons in Hin as [Heq|Hin];
    apply elem_of_cons in Hin' as [Heq'|Hin'].
  - inversion Heq; inversion Heq'; subst. split; [|lia].
    intros Hlt. by apply Qclt_not_eq in Hlt.
  - inversion Heq; subst.
    pose proof (dense_walk_bound _ _ _ _ _ Hs Hin') as Hle.
    destruct (dense_walk_start _ _ _ _ _ Hs Hin') as [Hge Hiff].
    split.
    + intros Hlt. destruct (decide (k' = rk')) as [Hk|]; [|lia].
      apply Hiff in Hk. subst. by apply Qclt_not_eq in Hlt.
    + intros Hlt. apply Qcle_lt_or_eq in Hle as [|Heq']; [done|].
      apply Hiff in Heq'. lia.
  - inversion Heq'; subst.
    pose proof (dense_walk_bound _ _ _ _ _ Hs Hin) as Hle.
    destruct (dense_walk_start _ _ _ _ _ Hs Hin) as [Hge _].
    split; [|lia]. intros Hlt. by apply Qcle_not_lt in Hle.
  - by eapply IH.
Qed.

Lemma dense_walk_ge prev rk l v k :
  (v, k) ∈ dense_walk prev rk l → (rk ≤ k)%nat.
Proof.
  revert prev rk. induction l as [|v0 l IH]; intros prev rk Hin; simpl in Hin.
  { by apply elem_of_nil in Hin. }
  apply elem_of_cons in Hin as [Heq|Hin].
  - inversion Heq; subst. case_decide; lia.
  - apply IH in Hin. revert Hin. case_decide; lia.
Qed.

(** The walk skips no rank: below every rank it gives out, the one
    before is given out too, down to the starting rank. *)
Lemma dense_walk_nogap prev rk l v k :
  (v, S k) ∈ dense_walk prev rk l → (rk ≤ k)%nat →
  k = rk ∨ ∃ w, (w, k) ∈ dense_walk prev rk l.
Proof.
  revert prev rk. induction l as [|v0 l IH]; intros prev rk Hin Hk.
  { by apply elem_of_nil in Hin. }
  simpl in *.
  set (rk' := if decide (v0 = prev) then rk else S rk) in *.
  assert (rk' = rk ∨ rk' = S rk) as Hrk' by (subst rk'; case_decide; auto).
  apply elem_of_cons in Hin as [Heq|Hin].
  - inversion Heq as [[Hv Hrk]]. left. lia.
  - pose proof (dense_walk_ge _ _ _ _ _ Hin) as Hge.
    destruct (decide (rk' = S k)) as [Hhead|Hne].
    + left. lia.
    + destruct (IH v0 rk' Hin) as [->|[w Hw]]; [lia| |].
      * right. exists v0. apply list_elem_of_here.
      * right. exists w. by apply list_elem_of_further.
Qed.

Lemma dense_ranks_fst vals :
  (dense_ranks vals).*1 = merge_sort (flip Qcle) vals.
Proof.
  unfold dense_ranks. destruct (merge_sort _ vals) as [|v l]; [done|].
  simpl. by rewrite dense_walk_fst.
Qed.

Lemma dense_ranks_elem vals v k : (v, k) ∈ dense_ranks vals → v ∈ vals.
Proof.
  intros Hin. apply (list_elem_of_fmap_2 fst) in Hin.
  rewrite dense_ranks_fst, merge_sort_Permutation in Hin. exact Hin.
Qed.

Lemma dense_ranks_ge vals v k : (v, k) ∈ dense_ranks vals → (1 ≤ k)%nat.
Proof.
  unfold dense_ranks. destruct (merge_sort _ vals) as [|v1 l].
  { intros Hin. by apply elem_of_nil in Hin. }
  intros [Heq|Hin]%elem_of_cons.
  - by inversion Heq.
  - by apply dense_walk_ge in Hin.
Qed.

Lemma dense_ranks_order vals v k v' k' :
  (v, k) ∈ dense_ranks vals → (v', k') ∈ dense_ranks vals →
  v' < v ↔ (k < k')%nat.
Proof.
  pose proof (StronglySorted_merge_sort (flip Qcle) vals) as Hs.
  unfold dense_ranks. destruct (merge_sort _ vals) as [|v1 l].
  { intros Hin. by apply elem_of_nil in Hin. }
  intros [Heq|Hin]%elem_of_cons [Heq'|Hin']%elem_of_cons.
  - inversion Heq; inversion Heq'; subst. split; [|lia].
    intros Hlt. by apply Qclt_not_eq in Hlt.
  - inversion Heq; subst.
    pose proof (dense_walk_bound _ _ _ _ _ Hs Hin') as Hle.
    destruct (dense_walk_start _ _ _ _ _ Hs Hin') as [Hge Hiff].
    split.
    + intros Hlt. destruct (decide (k' = 1%nat)) as [Hk|]; [|lia].
      apply Hiff in Hk. subst. by apply Qclt_not_eq in Hlt.
    + intros Hlt. apply Qcle_lt_or_eq in Hle as [|Heq']; [done|].
      apply Hiff in Heq'. lia.
  - inversion Heq'; subst.
    pose proof (dense_walk_bound _ _ _ _ _ Hs Hin) as Hle.
    pose proof (dense_walk_ge _ _ _ _ _ Hin) as Hge.
    split; [|lia]. intros Hlt. by apply Qcle_not_lt in Hle.
  - by eapply dense_walk_order.
Qed.

Lemma dense_ranks_nogap vals v k :
  (v, S k) ∈ dense_ranks vals → (1 ≤ k)%nat →
  ∃ w, (w, k) ∈ dense_ranks vals.
Proof.
  unfold dense_ranks. destruct (merge_sort _ vals) as [|v1 l].
  { intros Hin. by apply elem_of_nil in Hin. }
  intros [Heq|Hin]%elem_of_cons Hk.
  - inversion Heq. lia.
  - destruct (dense_walk_nogap _ _ _ _ _ Hin Hk) as [->|[w Hw]].
    + exists v1. apply list_elem_of_here.
    + exists w. by apply list_elem_of_further.
Qed.

Lemma rank_lookup_elem v (l : list (Qc * nat)) :
  v ∈ l.*1 → (v, rank_lookup v l) ∈ l.
Proof.
  induction l as [|[w k] l IH]; simpl.
  { intros Hin. by apply elem_of_nil in Hin. }
  intros Hin. case_decide as Hd.
  - subst. apply list_elem_of_here.
  - apply list_elem_of_further, IH.
    apply elem_of_cons in Hin as [?|?]; [by subst|done].
Qed.

(** The rank read back for a value of the list is one the walk gave
    to that value. *)
Lemma rank_dense_desc_elem vals v :
  v ∈ vals → (v, rank_dense_desc vals v) ∈ dense_ranks vals.
Proof.
  intros Hin. apply rank_lookup_elem.
  by rewrite dense_ranks_fst, merge_sort_Permutation.
Qed.

(** All entries of one value get one rank. *)
Lemma dense_ranks_functional vals v k :
  (v, k) ∈ dense_ranks vals → k = rank_dense_desc vals v.
Proof.
  intros Hin.
  pose proof (rank_dense_desc_elem vals v (dense_ranks_elem _ _ _ Hin)) as Hr.
  pose proof (dense_ranks_order _ _ _ _ _ Hin Hr) as H1.
  pose proof (dense_ranks_order _ _ _ _ _ Hr Hin) as H2.
  destruct (lt_eq_lt_dec k (rank_dense_desc vals v)) as [[Hlt|]|Hlt];
    [|done|].
  - apply H1 in Hlt. by apply Qclt_not_eq in Hlt.
  - apply H2 in Hlt. by apply Qclt_not_eq in Hlt.
Qed.

Lemma rank_dense_desc_ge vals v :
  v ∈ vals → (1 ≤ rank_dense_desc vals v)%nat.
Proof. intros Hin. eapply dense_ranks_ge, rank_dense_desc_elem, Hin. Qed.

Lemma rank_dense_desc_order vals v v' :
  v ∈ vals → v' ∈ vals →
  v' < v ↔ (rank_dense_desc vals v < rank_dense_desc vals v')%nat.
Proof.
  intros Hin Hin'. eapply dense_ranks_order; by apply rank_dense_desc_elem.
Qed.

Lemma rank_dense_desc_nogap vals v k :
  v ∈ vals → rank_dense_desc vals v = S k → (1 ≤ k)%nat →
  ∃ w, w ∈ vals ∧ rank_dense_desc vals w = k.
Proof.
  intros Hin Hr Hk. pose proof (rank_dense_desc_elem vals v Hin) as He.
  rewrite Hr in He. destruct (dense_ranks_nogap _ _ _ He Hk) as [w Hw].
  exists w. split; [by eapply dense_ranks_elem|].
  symmetry. by apply dense_ranks_functional.
Qed.

Lemma rank_dense_desc_max vals v :
  v ∈ vals → (∀ w, w ∈ vals → w ≤ v) → rank_dense_desc vals v = 1%nat.
Proof.
  intros Hin Hmax. pose proof (rank_dense_desc_ge vals v Hin) as Hge.
  destruct (rank_dense_desc vals v) as [|[|k]] eqn:Hr; [lia|done|].
  destruct (rank_dense_desc_nogap vals v (S k) Hin Hr) as (w & Hw & Hrw);
    [lia|].
  assert (v < w) as Hlt.
  { apply (rank_dense_desc_order vals w v Hw Hin). lia. }
  apply Hmax in Hw. by apply Qcle_not_lt in Hw.
Qed.

Lemma rank_dense_desc_next vals v v' :
  v ∈ vals → v' ∈ vals → v' < v →
  (∀ w, w ∈ vals → ¬ (v' < w ∧ w < v)) →
  rank_dense_desc vals v' = S (rank_dense_desc vals v).
Proof.
  intros Hin Hin' Hlt Hbetween.
  pose proof (proj1 (rank_dense_desc_order vals v v' Hin Hin') Hlt) as Hr.
  destruct (rank_dense_desc vals v') as [|k] eqn:Hk; [lia|].
  pose proof (rank_dense_desc_ge vals v Hin) as Hge.
  destruct (rank_dense_desc_nogap vals v' k Hin' Hk) as (w & Hw & Hrw);
    [lia|].
  destruct (decide (k = rank_dense_desc vals v)) as [|Hne]; [by f_equal|].
  exfalso. apply (Hbetween w Hw). split.
  - apply (rank_dense_desc_order vals w v' Hw Hin'). lia.
  - apply (rank_dense_desc_order vals v w Hin Hw). lia.
Qed.

End dense_rank.

(** ** The seasonal ranks (C1) *)

Section seasonal_rank.
Import Seasonal.

Lemma add_rank_elem means y p r :
  r ∈ filter (in_group y p) (add_rank means) →
  avg_value r ∈ group_means y p means ∧
  rank r = rank_dense_desc (group_means y p means) (avg_value r).
Proof.
  intros [[Hy Hp] Hin]%list_elem_of_filter.
  apply list_elem_of_fmap in Hin as (m & -> & Hm). simpl in *. split.
  - apply (list_elem_of_fmap_2' snd _ m); [|done].
    by apply list_elem_of_filter.
  - unfold group_means, same_group. by subst.
Qed.

Lemma add_rank_group means y p v :
  v ∈ group_means y p means →
  ∃ r, r ∈ filter (in_group y p) (add_rank means) ∧ avg_value r = v.
Proof.
  intros (m & -> & Hm)%list_elem_of_fmap.
  apply list_elem_of_filter in Hm as [[Hy Hp] Hm].
  eexists. split; [|shelve].
  apply list_elem_of_filter. split; [|by apply list_elem_of_fmap_2].
  done.
  Unshelve. done.
Qed.

Lemma add_rank_dense means y p :
  dense_ranking (filter (in_group y p) (add_rank means)).
Proof.
  split.
  - intros r [Hv ->]%add_rank_elem Hmax.
    apply rank_dense_desc_max; [done|].
    intros w (r' & Hr' & <-)%add_rank_group. by apply Hmax.
  - intros r r' [_ ->]%add_rank_elem [_ ->]%add_rank_elem Heq.
    by rewrite Heq.
  - intros r r' [Hv ->]%add_rank_elem [Hv' ->]%add_rank_elem Hlt.
    by apply rank_dense_desc_order.
  - intros r k Hr Hk Hge. pose proof Hr as [Hv Heq]%add_rank_elem.
    rewrite Heq in Hk.
    destruct (rank_dense_desc_nogap _ _ _ Hv Hk Hge) as (w & Hw & Hrw).
    destruct (add_rank_group _ _ _ _ Hw) as (r' & Hr' & <-).
    exists r'. split; [done|].
    by apply add_rank_elem in Hr' as [_ ->].
  - intros r r' Hr Hr' Hlt Hbetween.
    pose proof Hr as [Hv ->]%add_rank_elem.
    pose proof Hr' as [Hv' ->]%add_rank_elem.
    apply rank_dense_desc_next; [done..|].
    intros w (r'' & Hr'' & <-)%add_rank_group. by apply Hbetween.
Qed.

Lemma seasonal_pollution_chart_ok DATA_DIR data_avg :
  seasonal_pollution_chart DATA_DIR = Ok data_avg →
  ∃ df_list,
    for_each (λ f, df_melt f.2) (sorted_entries (glob_madrid DATA_DIR))
      = Ok df_list ∧
    data_avg = add_rank (groupby_mean key_le (keyed (concat df_list))).
Proof.
  unfold seasonal_pollution_chart. case_decide; [done|].
  destruct (for_each _ _) as [df_list|e]; simpl; [|done].
  intros [= <-]. by exists df_list.
Qed.

Lemma group_keys_NoDup {K} `{EqDecision K} (le : relation K)
    `{!RelDecision le} (kv : list (K * Qc)) :
  NoDup (groupby_mean le kv).*1.
Proof.
  unfold groupby_mean. rewrite <-list_fmap_compose.
  replace (fst ∘ (λ k, (k, mean (group_values k kv))) <$> group_keys le kv)
    with (group_keys le kv).
  - unfold group_keys. rewrite merge_sort_Permutation. apply NoDup_remove_dups.
  - induction (group_keys le kv) as [|k l IH]; [done|]. csimpl. by f_equal.
Qed.

Lemma add_rank_keys means :
  (λ r, (year r, season r, pollutant r)) <$> add_rank means = means.*1.
Proof.
  unfold add_rank. rewrite <-list_fmap_compose.
  induction means as [|[[[y s] p] v] means IH]; [done|].
  rewrite !fmap_cons. f_equal.
  apply list_fmap_ext. by intros i [[[y' s'] p'] v'] _.
Qed.

(** A group has one line per season. *)
Lemma add_rank_seasons means y p :
  NoDup means.*1 → NoDup (season <$> filter (in_group y p) (add_rank means)).
Proof.
  intros Hnd. rewrite <-add_rank_keys in Hnd.
  apply (NoDup_fmap_1 (λ s, (y, s, p))). rewrite <-list_fmap_compose.
  eapply sublist_NoDup; [exact Hnd|].
  replace ((λ s, (y, s, p)) ∘ season <$> filter (in_group y p) (add_rank means))
    with ((λ r, (year r, season r, pollutant r))
            <$> filter (in_group y p) (add_rank means)).
  - apply fmap_sublist, sublist_filter.
  - apply list_fmap_ext. intros i r Hr%list_elem_of_lookup_2.
    apply list_elem_of_filter in Hr as [[<- <-] _]. done.
Qed.

Lemma add_rank_mean (kv : list (key * Qc)) r :
  r ∈ add_rank (groupby_mean key_le kv) →
  avg_value r = mean (group_values (year r, season r, pollutant r) kv).
Proof.
  intros (m & -> & Hm)%list_elem_of_fmap. simpl.
  unfold groupby_mean in Hm. apply list_elem_of_fmap in Hm as (k & -> & _).
  by destruct k as [[??]?].
Qed.

(** C1. In the table of the seasonal aggregator every line holds the
    mean of the values of its year, season and pollutant; every year
    and pollutant has one line per season, and within them the [rank]
    column is a dense ranking of these means in descending order: the
    highest mean has rank 1, equal means have equal ranks, a smaller
    mean has a larger rank, no rank is skipped, and the next distinct
    mean has the next rank. *)
Theorem seasonal_rank_dense DATA_DIR data_avg :
  seasonal_pollution_chart DATA_DIR = Ok data_avg →
  (∃ df_list,
     for_each (λ f, df_melt f.2) (sorted_entries (glob_madrid DATA_DIR))
       = Ok df_list ∧
     ∀ r, r ∈ data_avg →
          avg_value r = mean (group_values (year r, season r, pollutant r)
                                (keyed (concat df_list)))) ∧
  ∀ y p, NoDup (season <$> filter (in_group y p) data_avg) ∧
         dense_ranking (filter (in_group y p) data_avg).
Proof.
  intros (df_list & Hloop & ->)%seasonal_pollution_chart_ok. split.
  - exists df_list. split; [done|]. intros r Hr. by apply add_rank_mean.
  - intros y p. split.
    + apply add_rank_seasons, group_keys_NoDup.
    + apply add_rank_dense.
Qed.

End seasonal_rank.

(** ** The no-input error of the seasonal aggregator (C9) *)

Section seasonal_no_input.
Import Seasonal.




End seasonal_no_input.

(** ** The annual summary (C3, C4) *)

Section annual.
Import Annual.



Lemma annual_data_ok files data :
  annual_data files = Ok data → data = omap row_of files.
Proof.
  revert data. induction files as [|[file df] files IH]; intros data; simpl.
  { by intros [= <-]. }
  unfold row_of. simpl.
  destruct (annual_row file df) as [r|e]; simpl; [|done].
  destruct (annual_data files) as [rest|e]; simpl; [|done].
  intros [= <-]. rewrite (IH rest eq_refl). by destruct r.
Qed.





End annual.

Section annual_sorted.
Import Annual.

#[local] Instance year_le_trans : Transitive year_le.
Proof. intros x y z. unfold year_le. lia. Qed.
#[local] Instance year_le_total : Total year_le.
Proof. intros x y. unfold year_le. lia. Qed.

Lemma row_of_year f r : row_of f = Some r → declared_year f.1 = Ok (year r).
Proof.
  unfold row_of, annual_row.
  destruct (negb _ || _); [done|].
  destruct (declared_year f.1) as [y|e]; simpl; [|done].
  destruct (negb _); [done|]. destruct (_ || _); [done|].
  by intros [= <-].
Qed.

Lemma StronglySorted_lt_of_le (l : list Z) :
  StronglySorted Z.le l → NoDup l → StronglySorted Z.lt l.
Proof.
  induction 1 as [|x l Hs IH Hall]; [constructor|].
  intros [Hx Hl]%NoDup_cons. constructor; [by apply IH|].
  rewrite Forall_forall in Hall |- *. intros z Hz.
  pose proof (Hall z Hz). assert (x ≠ z) by (by intros ->). lia.
Qed.

(** C4, as the code has it. The summary has one line per file that
    adds one, in ascending order of the year. The order is strict,
    and no year comes twice, when the files that add a line declare
    different years; nothing merges two files of one year. *)
Theorem df_yearly_sorted DATA_DIR table :
  df_yearly DATA_DIR = Ok table →
  table ≡ₚ omap row_of DATA_DIR ∧
  Sorted Z.le (year <$> table) ∧
  (NoDup (year <$> omap row_of DATA_DIR) →
   Sorted Z.lt (year <$> table) ∧ NoDup (year <$> table)).
Proof.
  unfold df_yearly.
  destruct (annual_data _) as [data|e] eqn:Hdata; simpl; [|done].
  case_decide; [done|]. intros [= <-].
  apply annual_data_ok in Hdata.
  assert (merge_sort year_le data ≡ₚ omap row_of DATA_DIR) as Hp.
  { rewrite merge_sort_Permutation, Hdata. apply omap_Permutation.
    apply merge_sort_Permutation. }
  assert (StronglySorted Z.le (year <$> merge_sort year_le data)) as Hs.
  { apply (StronglySorted_fmap _ year_le); [done|].
    apply StronglySorted_merge_sort; apply _. }
  split; [done|]. split; [by apply StronglySorted_Sorted|].
  intros Hnd. rewrite <-Hp in Hnd. split; [|done].
  by apply StronglySorted_Sorted, StronglySorted_lt_of_le.
Qed.

(** The summary is made whenever some file adds a line and no file
    name fails to give a year. *)
Lemma df_yearly_total DATA_DIR :
  Forall (λ f, is_ok (annual_row f.1 f.2)) DATA_DIR →
  omap row_of DATA_DIR ≠ [] →
  is_ok (df_yearly DATA_DIR).
Proof.
  intros Hall Hne. unfold df_yearly.
  assert (∀ files, Forall (λ f, is_ok (annual_row f.1 f.2)) files →
                   annual_data files = Ok (omap row_of files)) as Hok.
  { induction files as [|[file df] files IH]; [done|].
    intros [Hf Hfs]%Forall_cons_1. simpl in *. unfold row_of. simpl.
    destruct (annual_row file df) as [r|]; [|done]. simpl.
    rewrite (IH Hfs). simpl. by destruct r. }
  rewrite Hok.
  - simpl. case_decide as Hnil; [|done]. destruct Hne.
    apply Permutation_nil_r. rewrite <-Hnil. apply omap_Permutation.
    symmetry. apply merge_sort_Permutation.
  - rewrite Forall_forall in Hall |- *. intros f Hf. apply Hall.
    by apply elem_of_sorted_entries.
Qed.

End annual_sorted.

(** ** The seasonal shares (C2, C7) *)

Section seasonal_share.
Import SeasonalShare.

Lemma qsum_div (l : list Qc) (s : Qc) :
  qsum ((λ m, m / s) <$> l) = qsum l / s.
Proof.
  induction l as [|m l IH]; csimpl.
  - unfold Qcdiv. by rewrite Qcmult_0_l.
  - rewrite IH. unfold Qcdiv. by rewrite Qcmult_plus_distr_l.
Qed.

Lemma dropna_shares (l : list (option Qc)) (s : Qc) :
  s ≠ 0 →
  dropna ((λ x, finite (float_div x s)) <$> l) = (λ m, m / s) <$> dropna l.
Proof.
  intros Hs. unfold dropna, float_div.
  induction l as [|[m|] l IH]; csimpl; [done| |done].
  rewrite decide_False by done. csimpl. by rewrite IH.
Qed.

(** The table is [season_means] of the concatenated values. *)
Lemma pie_chart_ok pollutant DATA_DIR out rows :
  seasonal_pollution_pie_chart pollutant DATA_DIR = (out, Ok rows) →
  ∃ all_data, rows = season_means all_data.
Proof.
  unfold seasonal_pollution_pie_chart.
  destruct (load _ _) as [out' [df_list|e]]; simpl; [|done].
  case_decide; [done|]. intros [= _ <-]. by eexists.
Qed.

Lemma season_means_shares all_data :
  let rows := season_means all_data in
  let s := sum_skipna (season_mean <$> rows) in
  season <$> rows = seasons ∧
  percent <$> rows = (λ r, float_div (season_mean r) s) <$> rows.
Proof.
  unfold season_means, seasons. simpl. split; [done|]. reflexivity.
Qed.

(** C2, as the code has it. When the sum of the season means is not
    zero, the share of every season that has data is its mean divided
    by that sum, and these shares sum to exactly 1; a season without
    data has no share. (With a zero sum no share is a number.) *)
Theorem shares_sum_to_one pollutant DATA_DIR out rows :
  seasonal_pollution_pie_chart pollutant DATA_DIR = (out, Ok rows) →
  sum_skipna (season_mean <$> rows) ≠ 0 →
  season <$> rows = seasons ∧
  (∀ r, r ∈ rows →
     percent r = match season_mean r with
                 | Some m => Num (m / sum_skipna (season_mean <$> rows))
                 | None => NaN
                 end) ∧
  sum_skipna (finite ∘ percent <$> rows) = 1.
Proof.
  intros [all_data ->]%pie_chart_ok Hs.
  destruct (season_means_shares all_data) as [Hseasons Hpercent].
  set (rows := season_means all_data) in *.
  set (s := sum_skipna (season_mean <$> rows)) in *.
  split; [done|]. split.
  - intros r Hr.
    assert (percent r = float_div (season_mean r) s) as ->.
    { apply list_elem_of_lookup in Hr as [i Hi].
      apply (f_equal (λ l, l !! i)) in Hpercent.
      rewrite !list_lookup_fmap, Hi in Hpercent. by inversion Hpercent. }
    unfold float_div. destruct (season_mean r); [|done].
    by rewrite decide_False.
  - rewrite list_fmap_compose, Hpercent, <-!list_fmap_compose.
    rewrite (list_fmap_compose season_mean (λ x, finite (float_div x s))).
    unfold sum_skipna at 1. rewrite dropna_shares by done.
    rewrite qsum_div. fold (sum_skipna (season_mean <$> rows)). fold s.
    unfold Qcdiv. by apply Qcmult_inv_r.
Qed.




Lemma unique_names_filter (P : string * csv → Prop) `{∀ x, Decision (P x)} d :
  unique_names d → unique_names (filter P d).
Proof.
  unfold unique_names. induction d as [|x d IH]; [done|].
  intros Hd'. simpl in Hd'. apply NoDup_cons in Hd' as [Hx Hd].
  rewrite filter_cons. case_decide; [|by apply IH].
  rewrite fmap_cons. apply NoDup_cons. split; [|by apply IH].
  intros (y & Hy & Hin)%list_elem_of_fmap.
  apply list_elem_of_filter in Hin as [_ Hin]. apply Hx.
  rewrite Hy. by apply list_elem_of_fmap_2.
Qed.


End seasonal_share.

(** ** The station ranking (C8) *)

Section station_ranking.
Import StationRanking.

#[local] Instance value_ge_trans : Transitive value_ge.
Proof. intros x y z. unfold value_ge. intros ? ?. by etrans. Qed.
#[local] Instance value_ge_total : Total value_ge.
Proof. intros x y. unfold value_ge. destruct (total Qcle x.2 y.2); auto. Qed.

Lemma pollutant_avgs_ok pollution_data station_info avgs :
  pollutant_avgs pollution_data station_info = Ok avgs →
  avgs = station_means pollution_data ≫= merge_names station_info.
Proof.
  unfold pollutant_avgs.
  destruct (require_column "station" pollution_data); [|done].
  destruct (for_each (λ p, require_column p pollution_data)
              selected_pollutants); [|done].
  by intros [= <-].
Qed.

Lemma merge_names_elem station_info sm r :
  r ∈ merge_names station_info sm → a_station r = sm.1 ∧ a_means r = sm.2.
Proof.
  unfold merge_names. destruct (filter _ station_info) as [|i l].
  - by intros ->%list_elem_of_singleton.
  - by intros (i' & -> & _)%list_elem_of_fmap.
Qed.

Lemma merge_names_nonempty station_info sm :
  ∃ r, r ∈ merge_names station_info sm.
Proof.
  unfold merge_names. destruct (filter _ station_info) as [|i l].
  - eexists. apply list_elem_of_here.
  - eexists. rewrite fmap_cons. apply list_elem_of_here.
Qed.

Lemma station_means_elem pollution_data s ms p :
  (s, ms) ∈ station_means pollution_data → p ∈ selected_pollutants →
  (i ← col_index p ms.*1; mjoin (ms.*2 !! i)) = station_mean pollution_data s p.
Proof.
  unfold station_means. intros (s' & [= -> ->] & _)%list_elem_of_fmap Hp.
  unfold selected_pollutants in *.
  repeat (apply elem_of_cons in Hp as [->|Hp]; [reflexivity|]).
  by apply elem_of_nil in Hp.
Qed.

(** C8. For each of the three pollutants, the list drawn for it has
    one entry, name and mean, for every line of [pollutant_avgs]
    whose mean for that pollutant is not missing, and none for the
    other lines, whatever their means for the other pollutants; the
    entries are in descending order of the mean. The lines of
    [pollutant_avgs] are those of the stations of the data, each with
    the means of its station. *)
Theorem station_ranking_lists DATA_DIR pollution_data station_info avgs :
  read_csv DATA_DIR "madrid_2018.csv" = Ok pollution_data →
  pollutant_avgs pollution_data station_info = Ok avgs →
  station_ranking_chart DATA_DIR station_info
    = Ok ((λ p, (p, df_sorted p avgs)) <$> selected_pollutants) ∧
  (∀ s, s ∈ omap (cell (columns pollution_data) "station") (rows pollution_data)
        ↔ ∃ r, r ∈ avgs ∧ a_station r = s) ∧
  ∀ p, p ∈ selected_pollutants →
    (∀ r, r ∈ avgs →
          mean_of p r = station_mean pollution_data (a_station r) p) ∧
    df_sorted p avgs
      ≡ₚ omap (λ r, v ← mean_of p r; Some (a_name r, v)) avgs ∧
    (∀ n v, (n, v) ∈ df_sorted p avgs
            ↔ ∃ r, r ∈ avgs ∧ a_name r = n ∧ mean_of p r = Some v) ∧
    Sorted value_ge (df_sorted p avgs).
Proof.
  intros Hread Havgs. split; [|split].
  - unfold station_ranking_chart. rewrite Hread. simpl. by rewrite Havgs.
  - apply pollutant_avgs_ok in Havgs as ->. intros s.
    rewrite <-(elem_of_remove_dups (omap _ _)).
    rewrite <-(merge_sort_Permutation Qcle (remove_dups _)). split.
    + intros Hs.
      set (sm := (s, (λ p, (p, station_mean pollution_data s p))
                       <$> selected_pollutants)).
      destruct (merge_names_nonempty station_info sm) as [r Hr].
      exists r. split; [|by apply merge_names_elem in Hr as [-> _]].
      apply list_elem_of_bind. exists sm. split; [done|].
      unfold station_means. by apply (list_elem_of_fmap_2' _ _ s).
    + intros (r & (sm & Hr & Hsm)%list_elem_of_bind & <-).
      apply merge_names_elem in Hr as [-> _].
      unfold station_means in Hsm.
      by apply list_elem_of_fmap in Hsm as (s' & -> & Hs').
  - intros p Hp. split; [|split; [|split]].
    + apply pollutant_avgs_ok in Havgs as ->.
      intros r (sm & Hr & Hsm)%list_elem_of_bind.
      apply merge_names_elem in Hr as [-> Hms]. unfold mean_of. rewrite Hms.
      destruct sm as [s ms]. by eapply station_means_elem.
    + unfold df_sorted. apply merge_sort_Permutation.
    + intros n v. unfold df_sorted. rewrite merge_sort_Permutation.
      rewrite list_elem_of_omap. split.
      * intros (r & Hr & Hv). exists r.
        destruct (mean_of p r) as [v'|]; simpl in Hv; [|done].
        by inversion Hv; subst.
      * intros (r & Hr & <- & Hv). exists r. by rewrite Hv.
    + unfold df_sorted. apply Sorted_merge_sort. apply _.
Qed.

End station_ranking.

(** ** Reruns (C10) *)

Section determinism.

Lemma read_csv_elem d name df :
  unique_names d → (name, df) ∈ d → read_csv d name = Ok df.
Proof.
  intros Hd Hin. induction d as [|[n c] d IH]; simpl.
  { by apply elem_of_nil in Hin. }
  case_decide as Hn.
  - subst. f_equal. apply (unique_names_elem _ name _ _ Hd); [|done].
    apply list_elem_of_here.
  - apply elem_of_cons in Hin as [[= ? ?]|Hin]; [by subst|].
    apply IH; [|done]. unfold unique_names in *. simpl in Hd.
    by apply NoDup_cons in Hd as [_ Hd].
Qed.

Lemma read_csv_missing d name :
  name ∉ d.*1 →
  read_csv d name = Raise (FileNotFoundError ("VDS2425_Madrid/" +:+ name)).
Proof.
  induction d as [|[n c] d IH]; simpl; [done|].
  intros Hn. case_decide as Heq.
  - subst. destruct Hn. apply list_elem_of_here.
  - apply IH. intros Hin. apply Hn. by apply list_elem_of_further.
Qed.

Lemma read_csv_Permutation d1 d2 name :
  unique_names d1 → d1 ≡ₚ d2 → read_csv d1 name = read_csv d2 name.
Proof.
  intros Hd Hp.
  assert (unique_names d2) as Hd2 by (unfold unique_names; by rewrite <-Hp).
  destruct (decide (name ∈ d1.*1)) as [Hin|Hout].
  - apply list_elem_of_fmap in Hin as ([n df] & -> & Hin). simpl.
    rewrite (read_csv_elem d1 n df Hd Hin).
    rewrite Hp in Hin. by rewrite (read_csv_elem d2 n df Hd2 Hin).
  - rewrite (read_csv_missing d1 name Hout).
    rewrite Hp in Hout. by rewrite (read_csv_missing d2 name Hout).
Qed.

Lemma files_Permutation d1 d2 :
  unique_names d1 → d1 ≡ₚ d2 →
  sorted_entries (glob_madrid d1) = sorted_entries (glob_madrid d2).
Proof.
  intros Hd Hp. apply sorted_entries_Permutation.
  - by apply unique_names_filter.
  - unfold glob_madrid. by rewrite Hp.
Qed.

(** C10. Two runs on the same files give the same tables. What can
    differ between two runs is the order in which the system lists the
    directory; every aggregator sorts the listing or reads a fixed
    path, so its outcome (table, exception and printed warnings alike)
    is the same for any two listings of one directory. *)
Theorem aggregators_deterministic (d1 d2 : directory) :
  unique_names d1 → d1 ≡ₚ d2 →
  Annual.df_yearly d1 = Annual.df_yearly d2 ∧
  Seasonal.seasonal_pollution_chart d1 = Seasonal.seasonal_pollution_chart d2 ∧
  (∀ pollutant,
     SeasonalShare.seasonal_pollution_pie_chart pollutant d1
     = SeasonalShare.seasonal_pollution_pie_chart pollutant d2) ∧
  (∀ station_info,
     StationRanking.station_ranking_chart d1 station_info
     = StationRanking.station_ranking_chart d2 station_info).
Proof.
  intros Hd Hp. repeat split.
  - unfold Annual.df_yearly. by rewrite (sorted_entries_Permutation d1 d2).
  - unfold Seasonal.seasonal_pollution_chart.
    by rewrite (files_Permutation d1 d2).
  - intros pollutant. unfold SeasonalShare.seasonal_pollution_pie_chart.
    by rewrite (files_Permutation d1 d2).
  - intros station_info. unfold StationRanking.station_ranking_chart.
    by rewrite (read_csv_Permutation d1 d2).
Qed.

End determinism.

(** ** Lines without a date (C5) *)

Section undated_lines.

Lemma omap_filter {A B} (f : A → option B) (P : A → Prop)
    `{∀ x, Decision (P x)} (l : list A) :
  (∀ x, ¬ P x → f x = None) → omap f (filter P l) = omap f l.
Proof.
  intros Hf. induction l as [|x l IH]; [done|].
  rewrite filter_cons. case_decide as HP; csimpl; rewrite IH; [done|].
  by rewrite (Hf x HP).
Qed.

Lemma omap_bind {A B C} (f : B → option C) (h : A → list B) (l : list A) :
  omap f (l ≫= h) = l ≫= (λ x, omap f (h x)).
Proof.
  induction l as [|x l IH]; [done|]. csimpl. by rewrite omap_app, IH.
Qed.

Lemma omap_fmap {A B C} (f : B → option C) (g : A → B) (l : list A) :
  omap f (g <$> l) = omap (f ∘ g) l.
Proof. induction l as [|x l IH]; [done|]. csimpl. by rewrite IH. Qed.


(** *** The annual pipeline *)




(** *** The seasonal aggregator *)

Lemma df_melt_keyed df l :
  Seasonal.df_melt df = Ok l → Seasonal.keyed l = Seasonal.file_keyed df.
Proof.
  unfold Seasonal.df_melt, read_csv_parse_dates.
  destruct (has_date df); simpl; [|done].
  case_bool_decide; simpl; [done|]. intros [= <-].
  unfold Seasonal.keyed, Seasonal.file_keyed.
  rewrite omap_filter, omap_bind.
  - apply list_bind_ext; [|done]. intros c. by rewrite omap_fmap.
  - intros x Hx. destruct (Seasonal.l_year x); simpl; [|done].
    destruct (Seasonal.l_value x); [|done]. destruct Hx. by eexists.
Qed.







End undated_lines.

(** ** The properties on the sample directories *)

Section examples.
Import Examples.

Lemma seasonal_rank_dense_witness :
  Seasonal.seasonal_pollution_chart DATA_DIR = Ok data_avg ∧
  Seasonal.dense_ranking (filter (Seasonal.in_group 2001 "NO_2") data_avg).
Proof.
  assert (Seasonal.seasonal_pollution_chart DATA_DIR = Ok data_avg) as H
    by compute_done.
  split; [exact H|].
  exact (proj2 (proj2 (seasonal_rank_dense DATA_DIR data_avg H) 2001 "NO_2")).
Defined.

(** With a single reading of 0 the file has the pollutant, the sum of
    the season means is 0 and no share is a number: the shares do
    not sum to 1. *)
Lemma shares_zero_sum_counterexample :
  Exists (SeasonalShare.has_column "NO_2") (glob_madrid zero_reading) ∧
  SeasonalShare.seasonal_pollution_pie_chart "NO_2" zero_reading
    = ([], Ok zero_shares) ∧
  Forall (λ r, finite (SeasonalShare.percent r) = None) zero_shares ∧
  sum_skipna (finite ∘ SeasonalShare.percent <$> zero_shares) ≠ 1 ∧
  ¬ (∀ pollutant (d : directory),
       Exists (SeasonalShare.has_column pollutant) (glob_madrid d) →
       ∃ out rows,
         SeasonalShare.seasonal_pollution_pie_chart pollutant d
           = (out, Ok rows) ∧
         sum_skipna (finite ∘ SeasonalShare.percent <$> rows) = 1).
Proof.
  assert (SeasonalShare.seasonal_pollution_pie_chart "NO_2" zero_reading
          = ([], Ok zero_shares)) as Hrun by compute_done.
  assert (Exists (SeasonalShare.has_column "NO_2") (glob_madrid zero_reading))
    as Hhas by compute_done.
  assert (sum_skipna (finite ∘ SeasonalShare.percent <$> zero_shares) ≠ 1)
    as Hsum by compute_done.
  repeat split; [done..|compute_done|done|].
  intros Hclaim. destruct (Hclaim "NO_2" zero_reading Hhas) as (? & ? & Heq & ?).
  rewrite Hrun in Heq. by inversion Heq; subst.
Qed.

Lemma shares_sum_to_one_witness :
  SeasonalShare.seasonal_pollution_pie_chart "NO_2" DATA_DIR
    = (skipped_2002, Ok shares) ∧
  sum_skipna (SeasonalShare.season_mean <$> shares) ≠ 0 ∧
  sum_skipna (finite ∘ SeasonalShare.percent <$> shares) = 1.
Proof.
  assert (SeasonalShare.seasonal_pollution_pie_chart "NO_2" DATA_DIR
          = (skipped_2002, Ok shares)) as H by compute_done.
  assert (sum_skipna (SeasonalShare.season_mean <$> shares) ≠ 0) as Hs
    by compute_done.
  split; [exact H|]. split; [exact Hs|].
  exact (proj2 (proj2 (shares_sum_to_one "NO_2" DATA_DIR _ _ H Hs))).
Defined.


(** Two files that declare the same year give two lines of that year:
    the summary is neither strictly ascending nor free of duplicate
    years. *)
Lemma df_yearly_same_year_counterexample :
  Annual.df_yearly same_year = Ok same_year_yearly ∧
  Annual.year <$> same_year_yearly = [2001; 2001]%Z ∧
  ¬ Sorted Z.lt (Annual.year <$> same_year_yearly) ∧
  ¬ NoDup (Annual.year <$> same_year_yearly) ∧
  ¬ (∀ (d : directory) table,
       Annual.df_yearly d = Ok table →
       Sorted Z.lt (Annual.year <$> table) ∧ NoDup (Annual.year <$> table)).
Proof.
  assert (Annual.df_yearly same_year = Ok same_year_yearly) as Hrun
    by compute_done.
  assert (¬ NoDup (Annual.year <$> same_year_yearly)) as Hdup by compute_done.
  repeat split; [done|compute_done|done|].
  intros Hclaim. by destruct (Hclaim same_year same_year_yearly Hrun).
Qed.

Lemma df_yearly_sorted_witness :
  Annual.df_yearly DATA_DIR = Ok yearly ∧
  Sorted Z.le (Annual.year <$> yearly).
Proof.
  assert (Annual.df_yearly DATA_DIR = Ok yearly) as H by compute_done.
  split; [exact H|].
  exact (proj1 (proj2 (df_yearly_sorted DATA_DIR yearly H))).
Defined.



(** C6 on the code. The file of 2018 has its station identifiers in
    the column [station], the one [station_ranking_chart] groups by;
    the seasonal aggregator leaves out [station_id] instead, melts
    [station] with the pollutants, and its table has lines, with means
    and ranks, for a pollutant named [station]. *)
Theorem station_column_melted :
  (∀ df, "station" ∈ columns df → "station" ∈ Seasonal.value_vars df) ∧
  StationRanking.pollutant_avgs madrid_2018 stations = Ok avgs_2018 ∧
  Seasonal.value_vars madrid_2018 = ["NO"; "NO_2"; "NOx"; "station"] ∧
  Seasonal.seasonal_pollution_chart DATA_DIR_2018 = Ok data_avg_2018 ∧
  Seasonal.AvgRow 2018 "Winter" "station" (Qc_of_Z 28079006) 1 ∈ data_avg_2018.
Proof.
  split.
  - intros df Hin. unfold Seasonal.value_vars. apply list_elem_of_filter.
    split; [compute_done|done].
  - repeat split; compute_done.
Qed.



(** The second example of the specification: station B has no mean
    for [NOx]; it is in the lists of [NO] and [NO_2], after A, and
    not in the list of [NOx]. *)
Lemma station_ranking_lists_witness :
  read_csv DATA_DIR_2018 "madrid_2018.csv" = Ok madrid_2018 ∧
  StationRanking.pollutant_avgs madrid_2018 stations = Ok avgs_2018 ∧
  StationRanking.station_ranking_chart DATA_DIR_2018 stations
    = Ok rankings_2018.
Proof.
  assert (read_csv DATA_DIR_2018 "madrid_2018.csv" = Ok madrid_2018) as Hr
    by reflexivity.
  assert (StationRanking.pollutant_avgs madrid_2018 stations = Ok avgs_2018)
    as Ha by compute_done.
  split; [exact Hr|]. split; [exact Ha|].
  rewrite (proj1 (station_ranking_lists DATA_DIR_2018 madrid_2018 stations
                    avgs_2018 Hr Ha)).
  compute_done.
Defined.


Lemma aggregators_deterministic_witness :
  unique_names DATA_DIR ∧ DATA_DIR ≡ₚ DATA_DIR_relisted ∧
  Annual.df_yearly DATA_DIR = Annual.df_yearly DATA_DIR_relisted ∧
  Seasonal.seasonal_pollution_chart DATA_DIR
    = Seasonal.seasonal_pollution_chart DATA_DIR_relisted.
Proof.
  assert (unique_names DATA_DIR) as Hu by compute_done.
  assert (DATA_DIR ≡ₚ DATA_DIR_relisted) as Hp.
  { symmetry. apply (Permutation_cons_append
                       [("madrid_2002.csv", madrid_2002);
                        ("stations.csv", Csv false ["id"] [])]). }
  pose proof (aggregators_deterministic DATA_DIR DATA_DIR_relisted Hu Hp) as H.
  split; [exact Hu|]. split; [exact Hp|]. split.
  - exact (proj1 H).
  - exact (proj1 (proj2 H)).
Defined.

End examples.

(** * Further properties *)

(** ** The seasonal table *)

Section seasonal_table.
Import Seasonal.

Lemma string_compare_refl s : String.compare s s = Eq.
Proof.
  pose proof (String.compare_antisym s s) as H.
  by destruct (String.compare s s).
Qed.

Lemma string_ltb_le s1 s2 : String.ltb s1 s2 ↔ String.le s1 s2 ∧ s1 ≠ s2.
Proof.
  unfold String.le, String.ltb, String.leb.
  destruct (String.compare s1 s2) eqn:Hc; simpl.
  - apply String.compare_eq_iff in Hc. split; [done|]. by intros [_ ?].
  - split; [|done]. intros _. split; [done|]. intros ->.
    by rewrite string_compare_refl in Hc.
  - split; [done|]. by intros [? _].
Qed.

#[local] Instance key_le_trans : Transitive key_le.
Proof.
  intros [[y1 s1] p1] [[y2 s2] p2] [[y3 s3] p3]. unfold key_le.
  rewrite !string_ltb_le.
  intros [?|[-> [[Hs Hne]|[-> Hp]]]] [?|[-> [[Hs' Hne']|[-> Hp']]]];
    try (left; lia); try (left; done); right; (split; [done|]).
  - left. split; [by etrans|]. intros ->.
    apply Hne. by apply (anti_symm String.le).
  - left. done.
  - left. done.
  - right. split; [done|]. by etrans.
Qed.

#[local] Instance key_le_total : Total key_le.
Proof.
  intros [[y1 s1] p1] [[y2 s2] p2]. unfold key_le.
  rewrite !string_ltb_le.
  destruct (Z.lt_trichotomy y1 y2) as [?|[->|?]]; [by left; left| |by right; left].
  destruct (decide (s1 = s2)) as [->|Hne].
  - destruct (total String.le p1 p2); [left|right]; right; split; auto.
  - destruct (total String.le s1 s2); [left|right]; right; split; auto.
Qed.

Lemma groupby_mean_keys {K} `{EqDecision K} (le : relation K)
    `{!RelDecision le} (kv : list (K * Qc)) :
  (groupby_mean le kv).*1 = group_keys le kv.
Proof.
  unfold groupby_mean. rewrite <-list_fmap_compose.
  induction (group_keys le kv) as [|k l IH]; [done|]. csimpl. by f_equal.
Qed.

(** X1. The lines of [data_avg] come in ascending order of year, then
    season (by name), then pollutant, and no two lines have the same
    year, season and pollutant. *)
Theorem seasonal_table_sorted DATA_DIR data_avg :
  seasonal_pollution_chart DATA_DIR = Ok data_avg →
  let keys := (λ r, (year r, season r, pollutant r)) <$> data_avg in
  StronglySorted key_le keys ∧ NoDup keys.
Proof.
  intros (df_list & _ & ->)%seasonal_pollution_chart_ok. simpl.
  rewrite add_rank_keys, groupby_mean_keys. unfold group_keys. split.
  - apply StronglySorted_merge_sort; apply _.
  - rewrite merge_sort_Permutation. apply NoDup_remove_dups.
Qed.

(** The lines that enter the groups are those of the files. *)
Lemma for_each_keyed (files : directory) df_list :
  for_each (λ f, df_melt f.2) files = Ok df_list →
  keyed (concat df_list) = files ≫= λ f, file_keyed f.2.
Proof.
  revert df_list. induction files as [|[n df] files IH]; intros df_list; csimpl.
  { by intros [= <-]. }
  destruct (df_melt df) as [l|] eqn:Hl; simpl; [|done].
  destruct (for_each _ files) as [ls|]; simpl; [|done]. intros [= <-].
  simpl. unfold keyed in *. rewrite omap_app. fold (keyed l).
  by rewrite (df_melt_keyed df l Hl), (IH ls eq_refl).
Qed.

Lemma file_keyed_elem df k v :
  (k, v) ∈ file_keyed df ↔
  ∃ row y m, row ∈ rows df ∧ r_date row = DateOK y m ∧
    k.2 ∈ value_vars df ∧ k.1.1 = y ∧ k.1.2 = season_of (Some m) ∧
    cell (columns df) k.2 row = Some v.
Proof.
  unfold file_keyed, parsed_dates. rewrite list_elem_of_bind. split.
  - intros (c & Hin & Hc). apply list_elem_of_omap in Hin as (tr & Htr & Hk).
    apply list_elem_of_fmap in Htr as (row & -> & Hrow).
    unfold melt_key in Hk. simpl in Hk.
    destruct (r_date row) as [y m| |] eqn:Hd; simpl in Hk; [|done..].
    destruct (cell (columns df) c row) as [w|] eqn:Hw; simpl in Hk; [|done].
    inversion Hk; subst. by exists row, y, m.
  - intros (row & y & m & Hrow & Hd & Hc & Hy & Hs & Hv).
    destruct k as [[y' s] c]. simpl in *. subst. exists c. split; [|done].
    apply list_elem_of_omap. exists (Some (y, m), row). split.
    + apply list_elem_of_fmap. exists row. by rewrite Hd.
    + unfold melt_key. simpl. by rewrite Hv.
Qed.

Lemma data_avg_keyed DATA_DIR data_avg :
  seasonal_pollution_chart DATA_DIR = Ok data_avg →
  ∃ kv, data_avg = add_rank (groupby_mean key_le kv) ∧
    ∀ k v, (k, v) ∈ kv ↔
      ∃ f, f ∈ glob_madrid DATA_DIR ∧ (k, v) ∈ file_keyed f.2.
Proof.
  intros (df_list & Hloop & ->)%seasonal_pollution_chart_ok.
  exists (keyed (concat df_list)). split; [done|]. intros k v.
  rewrite (for_each_keyed _ _ Hloop), list_elem_of_bind.
  setoid_rewrite elem_of_sorted_entries.
  split; intros (f & H1 & H2); by exists f.
Qed.

Lemma elem_of_group_keys {K} `{EqDecision K} (le : relation K)
    `{!RelDecision le} (kv : list (K * Qc)) k :
  k ∈ group_keys le kv ↔ ∃ v, (k, v) ∈ kv.
Proof.
  unfold group_keys. rewrite merge_sort_Permutation, elem_of_remove_dups.
  rewrite list_elem_of_fmap. split.
  - intros ([k' v] & -> & Hin). by exists v.
  - intros [v Hin]. by exists (k, v).
Qed.

Lemma add_rank_key_elem kv y s p :
  (∃ r, r ∈ add_rank (groupby_mean key_le kv) ∧
        year r = y ∧ season r = s ∧ pollutant r = p)
  ↔ ∃ v, ((y, s, p), v) ∈ kv.
Proof.
  rewrite <-(elem_of_group_keys key_le), <-groupby_mean_keys, <-add_rank_keys.
  rewrite list_elem_of_fmap. split.
  - intros (r & Hr & <- & <- & <-). by exists r.
  - intros (r & [= -> -> ->] & Hr). by exists r.
Qed.

Lemma season_of_elem m :
  season_of m ∈ ["Winter"; "Spring"; "Summer"; "Fall"].
Proof.
  unfold season_of.
  repeat destruct (month_in m _);
    repeat first [apply list_elem_of_here | apply list_elem_of_further].
Qed.

Lemma data_avg_line_keyed DATA_DIR data_avg :
  seasonal_pollution_chart DATA_DIR = Ok data_avg →
  ∀ y s p,
    (∃ r, r ∈ data_avg ∧ year r = y ∧ season r = s ∧ pollutant r = p)
    ↔ ∃ f v, f ∈ glob_madrid DATA_DIR ∧ ((y, s, p), v) ∈ file_keyed f.2.
Proof.
  intros (kv & -> & Hkv)%data_avg_keyed y s p.
  rewrite add_rank_key_elem. split.
  - intros [v Hin]. apply Hkv in Hin as (f & Hf & Hin). by exists f, v.
  - intros (f & v & Hf & Hin). exists v. apply Hkv. by exists f.
Qed.

(** X2. [data_avg] has a line for a year, a season and a pollutant
    exactly when some matched file has, in a melted column of that
    name, a value on a line dated in that year and season. *)
Theorem seasonal_table_lines DATA_DIR data_avg :
  seasonal_pollution_chart DATA_DIR = Ok data_avg →
  ∀ y s p,
    (∃ r, r ∈ data_avg ∧ year r = y ∧ season r = s ∧ pollutant r = p)
    ↔ ∃ f row m v,
        f ∈ glob_madrid DATA_DIR ∧ row ∈ rows f.2 ∧
        r_date row = DateOK y m ∧ season_of (Some m) = s ∧
        p ∈ value_vars f.2 ∧ cell (columns f.2) p row = Some v.
Proof.
  intros Hrun y s p. rewrite (data_avg_line_keyed _ _ Hrun). split.
  - intros (f & v & Hf & Hin).
    apply file_keyed_elem in Hin
      as (row & y' & m & Hrow & Hd & Hc & Hy & Hs & Hv).
    simpl in *. subst. by exists f, row, m, v.
  - intros (f & row & m & v & Hf & Hrow & Hd & Hs & Hc & Hv).
    exists f, v. split; [done|].
    apply file_keyed_elem. by exists row, y, m.
Qed.

Lemma data_avg_seasons DATA_DIR data_avg r :
  seasonal_pollution_chart DATA_DIR = Ok data_avg → r ∈ data_avg →
  season r ∈ ["Winter"; "Spring"; "Summer"; "Fall"].
Proof.
  intros Hrun Hr.
  destruct (proj1 (data_avg_line_keyed _ _ Hrun (year r) (season r)
                     (pollutant r))) as (f & v & _ & Hin); [by exists r|].
  apply file_keyed_elem in Hin as (row & y & m & _ & _ & _ & _ & Hs & _).
  simpl in Hs. rewrite Hs. apply season_of_elem.
Qed.

Lemma dense_walk_le prev rk (l : list Qc) v k :
  (v, k) ∈ dense_walk prev rk l → (k ≤ rk + length l)%nat.
Proof.
  revert prev rk. induction l as [|v0 l IH]; intros prev rk Hin; simpl in Hin.
  { by apply elem_of_nil in Hin. }
  apply elem_of_cons in Hin as [Heq|Hin].
  - inversion Heq; subst. simpl. case_decide; lia.
  - apply IH in Hin. simpl. revert Hin. case_decide; lia.
Qed.

Lemma rank_dense_desc_le (vals : list Qc) v :
  v ∈ vals → (rank_dense_desc vals v ≤ length vals)%nat.
Proof.
  intros Hin%rank_dense_desc_elem. revert Hin.
  generalize (rank_dense_desc vals v). intros k. unfold dense_ranks.
  rewrite <-(Permutation_length (merge_sort_Permutation (flip Qcle) vals)).
  destruct (merge_sort _ vals) as [|v1 l].
  { intros Hin. by apply elem_of_nil in Hin. }
  intros [Heq|Hin]%elem_of_cons.
  - inversion Heq. simpl. lia.
  - apply dense_walk_le in Hin. simpl. lia.
Qed.

Lemma filter_fmap_comm {A B} (f : A → B) (P : B → Prop)
    `{∀ x, Decision (P x)} (l : list A) :
  filter P (f <$> l) = f <$> filter (λ x, P (f x)) l.
Proof.
  induction l as [|x l IH]; [done|]. csimpl. rewrite !filter_cons, IH.
  by case_decide.
Qed.

Lemma add_rank_group_length means y p :
  length (filter (in_group y p) (add_rank means))
  = length (group_means y p means).
Proof.
  unfold add_rank, group_means. rewrite filter_fmap_comm, !length_fmap.
  done.
Qed.

(** X3. Every line of [data_avg] has one of the four seasons, and its
    rank lies between 1 and the number of lines of its year and
    pollutant, which is at most 4. *)
Theorem seasonal_rank_range DATA_DIR data_avg :
  seasonal_pollution_chart DATA_DIR = Ok data_avg →
  ∀ r, r ∈ data_avg →
    let group := filter (in_group (year r) (pollutant r)) data_avg in
    season r ∈ ["Winter"; "Spring"; "Summer"; "Fall"] ∧
    (1 ≤ rank r ≤ length group)%nat ∧ (length group ≤ 4)%nat.
Proof.
  intros Hrun r Hr group.
  split; [by eapply data_avg_seasons|].
  assert (∀ r', r' ∈ data_avg →
            season r' ∈ ["Winter"; "Spring"; "Summer"; "Fall"]) as Hseason
    by (intros; by eapply data_avg_seasons).
  apply data_avg_keyed in Hrun as (kv & -> & _).
  assert (r ∈ group) as Hg by (by apply list_elem_of_filter).
  subst group. pose proof Hg as [Hv ->]%add_rank_elem.
  rewrite add_rank_group_length. split.
  - split; [by apply rank_dense_desc_ge|by apply rank_dense_desc_le].
  - rewrite <-add_rank_group_length.
    rewrite <-(length_fmap season).
    apply (submseteq_length _ ["Winter"; "Spring"; "Summer"; "Fall"]).
    apply NoDup_submseteq.
    + apply add_rank_seasons, group_keys_NoDup.
    + intros s (r' & -> & [_ Hr']%list_elem_of_filter)%list_elem_of_fmap.
      by apply Hseason.
Qed.

Lemma qsum_lower (lo : Qc) (l : list Qc) :
  Forall (λ v, lo ≤ v) l → Qc_of_Z (Z.of_nat (length l)) * lo ≤ qsum l.
Proof.
  induction 1 as [|v l Hlo _ IH]; simpl length.
  { change (Z.of_nat 0) with 0%Z. rewrite Z2Qc_inj_0, Qcmult_0_l.
    apply Qcle_refl. }
  rewrite Nat2Z.inj_succ, <-Z.add_1_l, Z2Qc_inj_add, Qcmult_plus_distr_l.
  rewrite Z2Qc_inj_1, Qcmult_1_l. simpl. by apply Qcplus_le_compat.
Qed.


Lemma length_Qc_pos (l : list Qc) :
  l ≠ [] → 0 < Qc_of_Z (Z.of_nat (length l)).
Proof.
  intros Hne. rewrite <-Z2Qc_inj_0. apply (proj1 (Z2Qc_inj_lt 0 _)).
  destruct l; [done|]. simpl length. lia.
Qed.

(** A mean lies between any two bounds of its values. *)
Lemma mean_lower (lo : Qc) (l : list Qc) :
  l ≠ [] → Forall (λ v, lo ≤ v) l → lo ≤ mean l.
Proof.
  intros Hn%length_Qc_pos Hlo%qsum_lower. unfold mean.
  set (n := Qc_of_Z (Z.of_nat (length l))) in *.
  assert (n ≠ 0) as Hn0 by (by apply Qclt_not_eq, not_eq_sym in Hn).
  assert (0 ≤ / n) as Hinv by by apply Qclt_le_weak, Qcinv_pos.
  unfold Qcdiv.
  apply Qcle_trans with (n * lo * / n); [|by apply Qcmult_le_compat_r].
  replace (n * lo * / n) with lo by (by field). apply Qcle_refl.
Qed.


Lemma group_values_nonempty {K} `{EqDecision K} (kv : list (K * Qc)) k v :
  (k, v) ∈ kv → group_values k kv ≠ [].
Proof.
  intros Hin Hnil. unfold group_values in Hnil. apply fmap_nil_inv in Hnil.
  by eapply (filter_nil_not_elem_of _ _ _ Hnil); [|exact Hin].
Qed.


End seasonal_table.

(** ** The seasonal figure *)

Section seasonal_figure.
Import Seasonal SeasonalFigure.

Lemma col_index_lookup c (l : list string) i :
  col_index c l = Some i → l !! i = Some c.
Proof.
  revert i. induction l as [|c' l IH]; intros i; simpl; [done|].
  case_decide as Hc; [by intros [= <-]; subst|].
  destruct (col_index c l) as [j|]; simpl; [|done].
  intros [= <-]. by apply IH.
Qed.

Lemma col_index_None c (l : list string) : col_index c l = None ↔ c ∉ l.
Proof.
  induction l as [|c' l IH]; simpl.
  { split; [intros _ Hin; by apply elem_of_nil in Hin|done]. }
  rewrite not_elem_of_cons. case_decide as Hc.
  - split; [done|]. by intros [? _].
  - destruct (col_index c l); simpl; [|tauto].
    split; [done|]. intros [_ Hl]. by apply IH in Hl.
Qed.

Lemma cell_Some_column cols c row v : cell cols c row = Some v → c ∈ cols.
Proof.
  unfold cell. destruct (col_index c cols) as [i|] eqn:Hi; simpl; [|done].
  intros _. apply col_index_lookup in Hi. by eapply list_elem_of_lookup_2.
Qed.

Lemma index_ok x l : is_ok (index x l) ↔ x ∈ l.
Proof.
  unfold index. destruct (col_index x l) as [i|] eqn:Hi; simpl.
  - split; [|done]. intros _. apply col_index_lookup in Hi.
    by eapply list_elem_of_lookup_2.
  - apply col_index_None in Hi. tauto.
Qed.

Lemma elem_of_pollutants data_avg p :
  p ∈ pollutants data_avg ↔ ∃ r, r ∈ data_avg ∧ pollutant r = p.
Proof.
  unfold pollutants.
  rewrite merge_sort_Permutation, elem_of_remove_dups, list_elem_of_fmap.
  split; intros (r & ? & ?); by exists r.
Qed.

Lemma pollutants_NoDup data_avg : NoDup (pollutants data_avg).
Proof.
  unfold pollutants. rewrite merge_sort_Permutation. apply NoDup_remove_dups.
Qed.

(** X5. When the table is made, the figure is made if some matched
    file has a value of [NO_2] on a dated line; if none has,
    [pollutants.index('NO_2')] ends the function with a [ValueError]. *)
Theorem seasonal_figure_needs_NO_2 DATA_DIR data_avg :
  Seasonal.seasonal_pollution_chart DATA_DIR = Ok data_avg →
  let has_NO_2 :=
    ∃ f row y m v, f ∈ glob_madrid DATA_DIR ∧ row ∈ rows f.2 ∧
      r_date row = DateOK y m ∧ cell (columns f.2) "NO_2" row = Some v in
  (has_NO_2 → is_ok (SeasonalFigure.seasonal_pollution_chart DATA_DIR)) ∧
  (¬ has_NO_2 →
   SeasonalFigure.seasonal_pollution_chart DATA_DIR
   = Raise (ValueError "'NO_2' is not in list")).
Proof.
  intros Hrun has_NO_2.
  assert (has_NO_2 ↔ "NO_2" ∈ pollutants data_avg) as Hiff.
  { rewrite elem_of_pollutants. subst has_NO_2. split.
    - intros (f & row & y & m & v & Hf & Hrow & Hd & Hv).
      destruct (proj2 (data_avg_line_keyed _ _ Hrun y (season_of (Some m))
                         "NO_2"))
        as (r & Hr & _ & _ & Hp); [|by exists r].
      exists f, v. split; [done|]. apply file_keyed_elem.
      exists row, y, m. repeat split; try done.
      unfold value_vars. apply list_elem_of_filter. split.
      + unfold not_melted. compute_done.
      + by eapply cell_Some_column.
    - intros (r & Hr & Hp).
      destruct (proj1 (data_avg_line_keyed _ _ Hrun (year r) (season r)
                         "NO_2"))
        as (f & v & Hf & Hin); [by exists r|].
      apply file_keyed_elem in Hin as (row & y & m & Hrow & Hd & _ & _ & _ & Hv).
      by exists f, row, y, m, v. }
  unfold SeasonalFigure.seasonal_pollution_chart, fig. rewrite Hrun. simpl.
  rewrite Hiff, <-index_ok. unfold index.
  destruct (col_index "NO_2" (pollutants data_avg)); simpl; [|done].
  split; [done|]. by intros [].
Qed.

Lemma list_bind_bind {A B C} (f : A → list B) (g : B → list C) (l : list A) :
  (l ≫= f) ≫= g = l ≫= (λ x, f x ≫= g).
Proof.
  induction l as [|x l IH]; [done|]. csimpl. by rewrite bind_app, IH.
Qed.

Lemma list_fmap_of_bind {A B C} (f : B → C) (g : A → list B) (l : list A) :
  f <$> (l ≫= g) = l ≫= (λ x, f <$> g x).
Proof.
  induction l as [|x l IH]; [done|]. csimpl. by rewrite fmap_app, IH.
Qed.

Lemma bind_Permutation_ext {A B} (f g : A → list B) (l : list A) :
  (∀ x, x ∈ l → f x ≡ₚ g x) → l ≫= f ≡ₚ l ≫= g.
Proof.
  induction l as [|x l IH]; intros Hfg; csimpl; [done|].
  rewrite (Hfg x) by apply list_elem_of_here.
  rewrite IH; [done|]. intros y Hy. by apply Hfg, list_elem_of_further.
Qed.

(** Filtering on each key of a list in turn loses and repeats nothing. *)
Lemma bind_filter_partition {A K} `{EqDecision K} (key : A → K)
    (ks : list K) (l : list A) :
  NoDup ks → (∀ x, x ∈ l → key x ∈ ks) →
  ks ≫= (λ k, filter (λ x, key x = k) l) ≡ₚ l.
Proof.
  revert l. induction ks as [|k ks IH]; intros l Hnd Hall.
  - destruct l as [|x l]; [done|].
    by destruct (proj1 (elem_of_nil (key x)) (Hall x (list_elem_of_here _ _))).
  - apply NoDup_cons in Hnd as [Hk Hnd]. csimpl.
    etrans; [|apply (filter_app_complement (λ x, key x = k) l)].
    apply Permutation_app_head.
    etrans; [|apply (IH (filter (λ x, ¬ key x = k) l) Hnd)].
    + apply bind_Permutation_ext. intros k' Hk'.
      rewrite list_filter_filter.
      rewrite (list_filter_iff (λ x, key x = k')
                 (λ x, key x = k' ∧ key x ≠ k)); [done|].
      intros x. split; [|tauto]. intros Hx. split; [done|].
      intros Hx'. apply Hk. by rewrite <-Hx', Hx.
    + intros x [Hne Hx]%list_elem_of_filter.
      by destruct (proj1 (elem_of_cons _ _ _) (Hall x Hx)).
Qed.

Lemma points_trace data_avg p s :
  points (trace data_avg p s)
  = (λ r, (season r, year r, avg_value r, rank r)) <$> df_ps data_avg p s.
Proof.
  unfold points, trace. simpl.
  assert (∀ r, r ∈ df_ps data_avg p s → season r = s) as Hs.
  { by intros r [Hs _]%list_elem_of_filter. }
  induction (df_ps data_avg p s) as [|r l IH]; [done|]. csimpl.
  rewrite IH by (intros; by apply Hs, list_elem_of_further).
  by rewrite (Hs r) by apply list_elem_of_here.
Qed.

(** X6. Every line of [data_avg] is drawn exactly once: the bars of
    all the traces together are the lines of the table, each with its
    season, year, mean and rank, up to their order. *)
Theorem seasonal_traces_partition DATA_DIR data_avg :
  Seasonal.seasonal_pollution_chart DATA_DIR = Ok data_avg →
  traces data_avg ≫= points
  ≡ₚ (λ r, (season r, year r, avg_value r, rank r)) <$> data_avg.
Proof.
  intros Hrun. unfold traces. rewrite list_bind_bind.
  set (tuple := λ r, (season r, year r, avg_value r, rank r)).
  transitivity
    (tuple <$> (pollutants data_avg
                  ≫= λ p, filter (λ r, pollutant r = p) data_avg)).
  - rewrite list_fmap_of_bind. apply bind_Permutation_ext. intros p _.
    rewrite list_fmap_bind.
    transitivity
      (tuple <$> (seasons ≫= λ s, filter (λ r, season r = s)
                                   (filter (λ r, pollutant r = p) data_avg))).
    + rewrite list_fmap_of_bind. apply bind_Permutation_ext. intros s _.
      simpl. by rewrite points_trace.
    + apply fmap_Permutation, bind_filter_partition.
      * unfold seasons. compute_done.
      * intros r [_ Hr]%list_elem_of_filter. by eapply data_avg_seasons.
  - apply fmap_Permutation, bind_filter_partition.
    + apply pollutants_NoDup.
    + intros r Hr. apply elem_of_pollutants. by exists r.
Qed.

Lemma visible_of_length ps p :
  length (visible_of ps p) = (4 * length ps)%nat.
Proof.
  unfold visible_of. induction ps as [|q ps IH]; [done|].
  rewrite bind_cons, length_app, IH. simpl. lia.
Qed.

Lemma traces_length data_avg :
  length (traces data_avg) = (4 * length (pollutants data_avg))%nat.
Proof.
  unfold traces. induction (pollutants data_avg) as [|q ps IH]; [done|].
  rewrite bind_cons, length_app, IH. simpl. lia.
Qed.

Lemma shown_seasons (b : bool) (g : string → bar) m ts :
  shown (((λ _, b) <$> seasons) ++ m) ((g <$> seasons) ++ ts)
  = ((if b then g <$> seasons else []) ++ shown m ts)%list.
Proof. unfold shown, seasons. by destruct b. Qed.

(** A [visible] list shows the four traces of its pollutant. *)
Lemma shown_traces (g : string → string → bar) ps p :
  NoDup ps →
  shown (visible_of ps p) (ps ≫= λ q, g q <$> seasons)
  = if decide (p ∈ ps) then g p <$> seasons else [].
Proof.
  induction ps as [|q ps IH]; intros Hnd.
  { by rewrite decide_False by apply not_elem_of_nil. }
  apply NoDup_cons in Hnd as [Hq Hnd]. specialize (IH Hnd).
  unfold visible_of in *. rewrite !bind_cons, shown_seasons, IH.
  destruct (decide (q = p)) as [->|Hne].
  - rewrite bool_decide_eq_true_2 by done.
    rewrite decide_False by done.
    rewrite decide_True by apply list_elem_of_here. by rewrite app_nil_r.
  - rewrite bool_decide_eq_false_2 by done. simpl.
    destruct (decide (p ∈ ps)) as [Hin|Hout].
    + by rewrite decide_True by by apply list_elem_of_further.
    + rewrite decide_False; [done|].
      intros [->|?]%elem_of_cons; [by destruct Hne|done].
Qed.

(** X7. The dropdown has one button per pollutant, in sorted order.
    Each sets the title of its pollutant and a [visible] list with one
    flag per trace, which shows the four season traces of that
    pollutant and no other trace. *)
Theorem seasonal_buttons_select data_avg f :
  fig data_avg = Ok f →
  label <$> buttons f = pollutants data_avg ∧
  ∀ b, b ∈ buttons f →
    args_title b = "Seasonal Pollution Levels by Year: " +:+ label b ∧
    length (args_visible b) = length (data f) ∧
    shown (args_visible b) (data f) = trace data_avg (label b) <$> seasons.
Proof.
  unfold fig. destruct (index _ _) as [i|]; simpl; [|done]. intros [= <-].
  simpl. unfold buttons_of. split.
  { rewrite <-list_fmap_compose.
    induction (pollutants data_avg) as [|q ps IH]; [done|]. csimpl.
    by f_equal. }
  intros b (p & -> & Hp)%list_elem_of_fmap. simpl. split; [done|]. split.
  - by rewrite visible_of_length, traces_length.
  - unfold traces. rewrite (shown_traces (trace data_avg))
      by apply pollutants_NoDup.
    by rewrite decide_True.
Qed.

(** X8. The active button is the one of [NO_2], and the traces shown
    at first are those its [visible] list shows. *)
Theorem seasonal_initial_view data_avg f :
  fig data_avg = Ok f →
  ∃ b, buttons f !! active f = Some b ∧ label b = "NO_2" ∧
       visible <$> data f = args_visible b.
Proof.
  unfold fig, index.
  destruct (col_index _ _) as [i|] eqn:Hi; simpl; [|done]. intros [= <-].
  simpl. apply col_index_lookup in Hi. unfold buttons_of.
  rewrite list_lookup_fmap, Hi. simpl. eexists. split; [done|]. simpl.
  split; [done|]. unfold traces, visible_of. clear Hi.
  induction (pollutants data_avg) as [|q ps IH]; [done|].
  by rewrite !bind_cons, fmap_app, IH.
Qed.

End seasonal_figure.

(** ** The range of the seasonal shares *)

Section seasonal_share_range.
Import SeasonalShare.

(** The values the loop collects are readings of the files. *)
Lemma load_values pollutant (files : directory) out df_list :
  load pollutant files = (out, Ok df_list) →
  ∀ sv, sv ∈ concat df_list →
    ∃ f row, f ∈ files ∧ row ∈ rows f.2 ∧
      cell (columns f.2) pollutant row = Some sv.2.
Proof.
  revert out df_list.
  induction files as [|[name df] files IH]; intros out df_list; simpl.
  { intros [= <- <-] sv Hin. by apply elem_of_nil in Hin. }
  unfold read_csv_parse_dates.
  destruct (has_date df); simpl; [|done].
  destruct (load pollutant files) as [out' [df_list'|e]] eqn:Hload.
  - assert (∀ sv, sv ∈ concat df_list' →
              ∃ f row, f ∈ (name, df) :: files ∧ row ∈ rows f.2 ∧
                cell (columns f.2) pollutant row = Some sv.2) as Hrest.
    { intros sv Hsv.
      destruct (IH _ _ eq_refl sv Hsv) as (f & row & Hf & Hrow).
      exists f, row. split; [by apply list_elem_of_further|done]. }
    case_bool_decide; simpl.
    + case_decide; [|done]. by intros [= <- <-].
    + case_decide; [by intros [= <- <-]|]. simpl. intros [= <- <-] sv.
      simpl. intros [Hin|Hin]%elem_of_app; [|by apply Hrest].
      unfold season_values, parsed_dates in Hin.
      apply list_elem_of_omap in Hin as (tr & Htr & Hsv).
      apply list_elem_of_fmap in Htr as (row & -> & Hrow). simpl in Hsv.
      destruct (cell (columns df) pollutant row) as [v|] eqn:Hv; [|done].
      simpl in Hsv. inversion Hsv; subst. simpl.
      exists (name, df), row. split; [apply list_elem_of_here|done].
  - case_bool_decide; simpl; case_decide; done.
Qed.

Lemma qsum_nonneg (l : list Qc) : Forall (λ v, 0 ≤ v) l → 0 ≤ qsum l.
Proof.
  induction 1 as [|v l Hv _ IH]; simpl; [apply Qcle_refl|].
  by apply Qcplus_nonneg_nonneg.
Qed.

Lemma qsum_elem_le (l : list Qc) m :
  Forall (λ v, 0 ≤ v) l → m ∈ l → m ≤ qsum l.
Proof.
  induction 1 as [|v l Hv Hl IH]; [by intros ?%elem_of_nil|].
  simpl. intros [->|Hin]%elem_of_cons.
  - rewrite <-(Qcplus_0_r v) at 1. apply Qcplus_le_compat; [apply Qcle_refl|].
    by apply qsum_nonneg.
  - rewrite <-(Qcplus_0_l m). apply Qcplus_le_compat; [done|by apply IH].
Qed.

(** A share of a sum of non-negative numbers is a fraction, or not a
    number; it is never infinite. *)
Lemma float_div_unit (l : list (option Qc)) x :
  Forall (λ v, 0 ≤ v) (dropna l) → x ∈ l →
  float_div x (sum_skipna l) = NaN ∨
  ∃ v, float_div x (sum_skipna l) = Num v ∧ 0 ≤ v ∧ v ≤ 1.
Proof.
  intros Hall Hx. unfold float_div, sum_skipna. destruct x as [m|]; [|by left].
  assert (m ∈ dropna l) as Hm.
  { unfold dropna. apply list_elem_of_omap. by exists (Some m). }
  pose proof (qsum_elem_le _ _ Hall Hm) as Hle.
  assert (0 ≤ m) as Hm0 by (rewrite Forall_forall in Hall; by apply Hall).
  case_decide as Hs.
  - left. rewrite Hs in Hle. rewrite decide_True; [done|].
    by apply Qcle_antisym.
  - right. eexists. split; [done|].
    assert (0 < qsum (dropna l)) as Hpos.
    { apply Qcle_lt_or_eq in Hle as [?|Heq].
      - by eapply Qcle_lt_trans.
      - rewrite <-Heq in Hs |- *.
        apply Qcle_lt_or_eq in Hm0 as [?|?]; [done|]. congruence. }
    assert (0 ≤ / qsum (dropna l)) as Hinv
      by by apply Qclt_le_weak, Qcinv_pos.
    unfold Qcdiv. split; [by apply Qcmult_nonneg_nonneg|].
    rewrite <-(Qcmult_inv_r (qsum (dropna l))) by done.
    by apply Qcmult_le_compat_r.
Qed.

Lemma season_means_nonneg all_data :
  Forall (λ sv : string * Qc, 0 ≤ sv.2) all_data →
  Forall (λ v, 0 ≤ v) (dropna (season_mean <$> season_means all_data)).
Proof.
  intros Hall. rewrite Forall_forall. intros m Hm. unfold dropna in Hm.
  apply list_elem_of_omap in Hm as (o & Ho & Heq). simpl in Heq. subst o.
  apply list_elem_of_fmap in Ho as (r & Hm & Hr).
  unfold season_means in Hr. cbv zeta in Hr.
  apply list_elem_of_fmap in Hr as ([s o] & -> & Hso). simpl in Hm.
  apply list_elem_of_fmap in Hso as (s' & [= -> ->] & _).
  destruct (col_index s' _) as [i|]; simpl in Hm; [|done].
  symmetry in Hm. apply list_elem_of_lookup_2 in Hm.
  apply list_elem_of_fmap in Hm as ([k v] & -> & Hkv).
  unfold groupby_mean in Hkv.
  apply list_elem_of_fmap in Hkv as (k' & [= -> ->] & Hk). simpl.
  apply elem_of_group_keys in Hk as [v Hv].
  apply mean_lower; [by eapply group_values_nonempty|].
  rewrite Forall_forall. unfold group_values.
  intros w (sv & -> & [_ Hsv]%list_elem_of_filter)%list_elem_of_fmap.
  rewrite Forall_forall in Hall. by apply Hall.
Qed.

(** X9. When no reading of the pollutant in the matched files is
    negative, every share of the table is a number between 0 and 1 or
    is not a number; none is infinite. *)
Theorem shares_in_unit_interval pollutant DATA_DIR out table :
  seasonal_pollution_pie_chart pollutant DATA_DIR = (out, Ok table) →
  (∀ f row v, f ∈ glob_madrid DATA_DIR → row ∈ rows f.2 →
              cell (columns f.2) pollutant row = Some v → 0 ≤ v) →
  ∀ r, r ∈ table →
    percent r = NaN ∨ ∃ v, percent r = Num v ∧ 0 ≤ v ∧ v ≤ 1.
Proof.
  unfold seasonal_pollution_pie_chart.
  destruct (load _ _) as [out' [df_list|e]] eqn:Hload; simpl; [|done].
  case_decide; [done|]. intros [= _ <-] Hall r Hr.
  destruct (season_means_shares (concat df_list)) as [_ Hpercent].
  set (table := season_means (concat df_list)) in *.
  assert (percent r
          = float_div (season_mean r) (sum_skipna (season_mean <$> table)))
    as ->.
  { apply list_elem_of_lookup in Hr as [i Hi].
    apply (f_equal (λ l, l !! i)) in Hpercent.
    rewrite !list_lookup_fmap, Hi in Hpercent. by inversion Hpercent. }
  apply float_div_unit; [|by apply list_elem_of_fmap_2].
  apply season_means_nonneg. rewrite Forall_forall. intros sv Hsv.
  destruct (load_values _ _ _ _ Hload sv Hsv) as (f & row & Hf & Hrow & Hv).
  apply (Hall f row); [|done..]. by apply elem_of_sorted_entries.
Qed.

End seasonal_share_range.

(** ** The annual means *)

Section annual_means.
Import Annual.


End annual_means.

(** ** The year of a file name *)

Section file_names.
Import Annual.

Implicit Types (s t : string) (c sep : ascii).

Lemma split_cons sep s : ∃ w ws, split sep s = w :: ws.
Proof.
  destruct s as [|c s]; simpl; [by eexists _, _|].
  case_decide; [by eexists _, _|]. destruct (split sep s); by eexists _, _.
Qed.

(** A text without the separator is its own single piece. *)
Lemma split_without sep s :
  sep ∉ list_ascii_of_string s → split sep s = [s].
Proof.
  induction s as [|c s IH]; simpl; [done|].
  intros [Hc Hs]%not_elem_of_cons. rewrite decide_False by done.
  by rewrite IH.
Qed.

(** The first piece ends at the first separator. *)
Lemma split_app_sep sep s t :
  sep ∉ list_ascii_of_string s →
  split sep (s +:+ String sep t) = s :: split sep t.
Proof.
  induction s as [|c s IH]; simpl.
  { intros _. by rewrite decide_True. }
  intros [Hc Hs]%not_elem_of_cons. rewrite decide_False by done.
  by rewrite IH.
Qed.

Lemma split_app_head sep s t :
  sep ∉ list_ascii_of_string s →
  ∃ w ws, split sep t = w :: ws ∧ split sep (s +:+ t) = (s +:+ w) :: ws.
Proof.
  intros Hs. destruct (split_cons sep t) as (w & ws & Ht). exists w, ws.
  split; [done|]. induction s as [|c s IH]; simpl; [done|].
  apply not_elem_of_cons in Hs as [Hc Hs]. rewrite decide_False by done.
  by rewrite (IH Hs).
Qed.

Lemma string_app_cons c s t : String c s +:+ t = String c (s +:+ t).
Proof. reflexivity. Qed.
Lemma string_app_empty t : "" +:+ t = t.
Proof. reflexivity. Qed.
Lemma string_app_assoc s t u : (s +:+ t) +:+ u = s +:+ t +:+ u.
Proof.
  induction s as [|c s IH]; [done|]. by rewrite !string_app_cons, IH.
Qed.

Lemma pretty_N_char_digit (n : N) :
  (n < 10)%N → Ascii.is_nat (pretty_N_char n) = Some (N.to_nat n).
Proof.
  intros Hn. destruct n as [|p]; [done|].
  do 4 (try destruct p as [p|p|]); try (exfalso; lia); done.
Qed.

Lemma pretty_N_go_app (x : N) s :
  pretty_N_go x s = pretty_N_go x "" +:+ s.
Proof.
  revert s. induction (N.lt_wf_0 x) as [x _ IH]. intros s.
  destruct (decide (x = 0%N)) as [->|Hx]; [by rewrite !pretty_N_go_0|].
  rewrite !(pretty_N_go_step x) by lia.
  assert (x `div` 10 < x)%N as Hlt by (apply N.div_lt; lia).
  rewrite (IH _ Hlt (String _ s)), (IH _ Hlt (String _ "")).
  by rewrite string_app_assoc.
Qed.

Lemma digits_app (acc : Z) s t :
  digits acc (s +:+ t) = digits acc s ≫= λ a, digits a t.
Proof.
  revert acc. induction s as [|c s IH]; intros acc; simpl; [done|].
  destruct (Ascii.is_nat c); simpl; [apply IH|done].
Qed.

(** Reading back the digits of a number gives the number. *)
Lemma digits_pretty_N_go (x : N) :
  digits 0 (pretty_N_go x "") = Some (Z.of_N x).
Proof.
  induction (N.lt_wf_0 x) as [x _ IH].
  destruct (decide (x = 0%N)) as [->|Hx]; [by rewrite pretty_N_go_0|].
  rewrite pretty_N_go_step, pretty_N_go_app, digits_app by lia.
  rewrite IH by (apply N.div_lt; lia). simpl.
  rewrite pretty_N_char_digit by (apply N.mod_lt; lia). simpl. f_equal.
  pose proof (N.div_mod x 10). lia.
Qed.

Lemma chars_app s t :
  list_ascii_of_string (s +:+ t)
  = (list_ascii_of_string s ++ list_ascii_of_string t)%list.
Proof. induction s as [|c s IH]; simpl; [done|]. by rewrite IH. Qed.

Lemma pretty_N_go_digits (x : N) :
  Forall is_digit (list_ascii_of_string (pretty_N_go x "")).
Proof.
  induction (N.lt_wf_0 x) as [x _ IH].
  destruct (decide (x = 0%N)) as [->|Hx]; [by rewrite pretty_N_go_0|].
  rewrite pretty_N_go_step, pretty_N_go_app, chars_app by lia.
  apply Forall_app. split; [apply IH, N.div_lt; lia|].
  simpl. repeat constructor. unfold is_digit.
  rewrite pretty_N_char_digit by (apply N.mod_lt; lia). by eexists.
Qed.

Lemma pretty_N_digits (x : N) :
  pretty x ≠ "" ∧ Forall is_digit (list_ascii_of_string (pretty x)) ∧
  digits 0 (pretty x) = Some (Z.of_N x).
Proof.
  unfold pretty, pretty_N. case_decide as Hx.
  - subst. split; [done|]. split; [|done]. repeat constructor. by eexists.
  - split; [|split; [apply pretty_N_go_digits|apply digits_pretty_N_go]].
    intros Hnil. pose proof (digits_pretty_N_go x) as Hd.
    rewrite Hnil in Hd. simpl in Hd. inversion Hd. lia.
Qed.

Lemma rev_app_rev_app s1 s2 s3 :
  String.rev_app (String.rev_app s1 s2) s3 = String.rev_app s2 (s1 +:+ s3).
Proof.
  revert s2 s3. induction s1 as [|c s1 IH]; intros s2 s3; simpl; [done|].
  by rewrite IH.
Qed.

Lemma rev_involutive s : String.rev (String.rev s) = s.
Proof.
  unfold String.rev. rewrite rev_app_rev_app. simpl.
  induction s as [|c s IH]; [done|]. by rewrite string_app_cons, IH.
Qed.

Lemma chars_rev_app s1 s2 :
  list_ascii_of_string (String.rev_app s1 s2)
  = (reverse (list_ascii_of_string s1) ++ list_ascii_of_string s2)%list.
Proof.
  revert s2. induction s1 as [|c s1 IH]; intros s2; simpl; [done|].
  by rewrite IH, reverse_cons, <-app_assoc.
Qed.

Lemma is_digit_not_space c : is_digit c → Ascii.is_space c = false.
Proof. destruct c as [[] [] [] [] [] [] [] []]; by intros [? ?]. Qed.

Lemma lstrip_digits s :
  Forall is_digit (list_ascii_of_string s) → lstrip s = s.
Proof.
  destruct s as [|c s]; simpl; [done|]. intros [Hc _]%Forall_cons_1.
  by rewrite is_digit_not_space.
Qed.

Lemma strip_digits s :
  Forall is_digit (list_ascii_of_string s) → strip s = s.
Proof.
  intros Hs. unfold strip. rewrite (lstrip_digits s Hs).
  rewrite lstrip_digits; [apply rev_involutive|].
  unfold String.rev. rewrite chars_rev_app. simpl. rewrite app_nil_r.
  by apply Forall_reverse.
Qed.

(** [int] reads a number written in digits. *)
Lemma int_pretty (x : N) : int (pretty x) = Ok (Z.of_N x).
Proof.
  destruct (pretty_N_digits x) as (Hne & Hd & Hval).
  unfold int. rewrite (strip_digits _ Hd).
  destruct (pretty x) as [|c s] eqn:Hs; [done|].
  apply Forall_cons_1 in Hd as [Hc _].
  assert (c ≠ "-"%char ∧ c ≠ "+"%char) as [Hm Hp].
  { split; intros ->; by destruct Hc. }
  destruct c as [[] [] [] [] [] [] [] []]; try done; by rewrite Hval.
Qed.

Lemma digits_without c (x : N) :
  ¬ is_digit c → c ∉ list_ascii_of_string (pretty x).
Proof.
  intros Hc Hin. destruct (pretty_N_digits x) as (_ & Hd & _).
  rewrite Forall_forall in Hd. by apply Hc, Hd.
Qed.

(** X11. The year is read back from a name made of a part without
    underscore, an underscore, the year in digits, a dot and anything:
    [madrid_2001.csv] declares 2001. *)
Theorem declared_year_round_trip (before : string) (y : N) (rest : string) :
  "_"%char ∉ list_ascii_of_string before →
  declared_year (before +:+ "_" +:+ pretty y +:+ "." +:+ rest)
  = Ok (Z.of_N y).
Proof.
  intros Hb. unfold declared_year.
  change (before +:+ "_" +:+ pretty y +:+ "." +:+ rest)
    with (before +:+ String "_" (pretty y +:+ String "." rest)).
  rewrite (split_app_sep _ _ _ Hb). simpl lookup.
  destruct (split_app_head "_" (pretty y +:+ ".") rest)
    as (w & ws & _ & Hsplit).
  { rewrite chars_app. apply not_elem_of_app. split.
    - apply digits_without. by intros [? ?].
    - simpl. apply not_elem_of_cons. split; [done|apply not_elem_of_nil]. }
  rewrite !string_app_assoc in Hsplit.
  change ("." +:+ rest) with (String "." rest) in Hsplit.
  change ("." +:+ w) with (String "." w) in Hsplit.
  rewrite Hsplit. simpl.
  rewrite split_app_sep; [apply int_pretty|].
  apply digits_without. by intros [? ?].
Qed.

End file_names.

(** ** The outcome of the annual script *)

Section annual_outcome.
Import Annual.

(** The body of the loop raises only through the year of the name. *)
Lemma annual_row_is_ok file df :
  is_ok (annual_row file df) ↔
  (endswith file ".csv" = true → file ≠ "stations.csv" →
   is_ok (declared_year file)).
Proof.
  unfold annual_row. destruct (endswith file ".csv"); simpl; [|done].
  case_bool_decide as Hs; simpl; [tauto|].
  destruct (declared_year file) as [y|e]; simpl.
  - destruct (negb _); [done|]. by destruct (_ || _).
  - split; [done|]. intros H. by apply H.
Qed.

Lemma annual_data_is_ok (files : directory) :
  is_ok (annual_data files) ↔ Forall (λ f, is_ok (annual_row f.1 f.2)) files.
Proof.
  induction files as [|[file df] files IH]; simpl.
  { split; [by constructor|done]. }
  rewrite Forall_cons, <-IH. simpl.
  destruct (annual_row file df) as [r|]; simpl; [|tauto].
  destruct (annual_data files); simpl; tauto.
Qed.

Lemma omap_row_of_nil (d : directory) :
  omap row_of d = [] ↔ ∀ f, f ∈ d → row_of f = None.
Proof.
  induction d as [|f d IH]; csimpl.
  { split; [|done]. intros _ f Hf. by apply elem_of_nil in Hf. }
  destruct (row_of f) as [r|] eqn:Hr; csimpl.
  - split; [done|]. intros Hall.
    by rewrite (Hall f (list_elem_of_here _ _)) in Hr.
  - rewrite IH. split.
    + intros Hall f' [->|?]%elem_of_cons; [done|by apply Hall].
    + intros Hall f' Hf'. by apply Hall, list_elem_of_further.
Qed.

(** X12. The annual script ends without an exception exactly when
    the name of every [.csv] file other than [stations.csv] gives a
    year and some file adds a line; when the names give their years
    and no file adds a line, [sort_values('year')] raises
    [KeyError]. *)
Theorem df_yearly_outcome DATA_DIR :
  let names_ok :=
    ∀ f, f ∈ DATA_DIR → endswith f.1 ".csv" = true → f.1 ≠ "stations.csv" →
         is_ok (declared_year f.1) in
  (is_ok (df_yearly DATA_DIR)
   ↔ names_ok ∧ ∃ f, f ∈ DATA_DIR ∧ is_Some (row_of f)) ∧
  (names_ok → (∀ f, f ∈ DATA_DIR → row_of f = None) →
   df_yearly DATA_DIR = Raise (KeyError "year")).
Proof.
  intros names_ok.
  assert (names_ok ↔ is_ok (annual_data (sorted_entries DATA_DIR))) as Hnames.
  { rewrite annual_data_is_ok, Forall_forall. subst names_ok. split.
    - intros Hall f Hf. apply (proj1 (elem_of_sorted_entries _ _)) in Hf.
      apply (proj2 (annual_row_is_ok f.1 f.2)). by apply Hall.
    - intros Hall f Hf. apply (proj1 (annual_row_is_ok f.1 f.2)), Hall.
      by apply elem_of_sorted_entries. }
  assert (∀ data, annual_data (sorted_entries DATA_DIR) = Ok data →
            data = [] ↔ ∀ f, f ∈ DATA_DIR → row_of f = None) as Hnil.
  { intros data ->%annual_data_ok. rewrite omap_row_of_nil.
    by setoid_rewrite elem_of_sorted_entries. }
  rewrite Hnames. unfold df_yearly.
  destruct (annual_data _) as [data|e]; simpl; [|by split; [split; [|intros []]|]].
  specialize (Hnil data eq_refl). split.
  - case_decide as Hd; simpl.
    + split; [done|]. intros [_ (f & Hf & [r Hr])].
      rewrite (proj1 Hnil Hd f Hf) in Hr. done.
    + split; [|done]. intros _. split; [done|].
      destruct (decide (Exists (λ f, is_Some (row_of f)) DATA_DIR))
        as [Hex|Hnex].
      * apply Exists_exists in Hex as (f & Hf & Hr). by exists f.
      * destruct Hd. apply Hnil. intros f Hf.
        destruct (row_of f) as [r|] eqn:Hr; [|done]. destruct Hnex.
        apply Exists_exists. exists f. by rewrite Hr.
  - intros _ Hnone. by rewrite decide_True by by apply Hnil.
Qed.

(** X13. A [.csv] file other than [stations.csv] whose name has no
    underscore makes the annual script end with an exception, whatever
    the other files are. *)
Theorem annual_needs_underscore DATA_DIR f :
  f ∈ DATA_DIR → endswith f.1 ".csv" = true → f.1 ≠ "stations.csv" →
  "_"%char ∉ list_ascii_of_string f.1 →
  ¬ is_ok (df_yearly DATA_DIR).
Proof.
  intros Hf Hcsv Hst Hu. unfold df_yearly.
  destruct (annual_data _) as [data|e] eqn:Hdata; simpl; [|by intros []].
  intros _.
  assert (is_ok (annual_data (sorted_entries DATA_DIR))) as Hok
    by by rewrite Hdata.
  apply annual_data_is_ok in Hok. rewrite Forall_forall in Hok.
  specialize (Hok f (proj2 (elem_of_sorted_entries _ _) Hf)).
  apply (proj1 (annual_row_is_ok f.1 f.2)) in Hok; [|done..].
  unfold declared_year in Hok.
  by rewrite (split_without _ _ Hu) in Hok.
Qed.

End annual_outcome.

(** ** The trend chart *)

Section trend.
Import Annual Trend.

#[local] Instance trend_year_le_trans : Transitive year_le.
Proof. intros x y z. unfold year_le. lia. Qed.
#[local] Instance trend_year_le_total : Total year_le.
Proof. intros x y. unfold year_le. lia. Qed.

(** Looking a column up in the means of a line. *)
Lemma lookup_means (g : string → option Qc) (cols : list string) p :
  (i ← col_index p ((λ col, (col, g col)) <$> cols).*1;
   mjoin (((λ col, (col, g col)) <$> cols).*2 !! i))
  = if decide (p ∈ cols) then g p else None.
Proof.
  induction cols as [|c cols IH]; csimpl; [done|].
  destruct (decide (p = c)) as [->|Hc]; csimpl.
  - by rewrite decide_True by apply list_elem_of_here.
  - destruct (decide (p ∈ c :: cols)) as [Hin|Hout].
    + apply elem_of_cons in Hin as [?|Hin]; [done|].
      rewrite decide_True in IH by done. rewrite <-IH.
      by destruct (col_index p _).
    + apply not_elem_of_cons in Hout as [_ Hout].
      rewrite decide_False in IH by done. rewrite <-IH.
      by destruct (col_index p _).
Qed.

Lemma row_of_means f r :
  row_of f = Some r →
  means r = (λ col, (col, mean_skipna (cell (columns f.2) col
                                         <$> year_filter (year r) f.2)))
            <$> valid_cols f.2.
Proof.
  unfold row_of, annual_row.
  destruct (negb _ || _); [done|].
  destruct (declared_year f.1) as [y|e]; simpl; [|done].
  destruct (negb _); [done|]. destruct (_ || _); [done|].
  by intros [= <-].
Qed.

(** A point of a trend line is the mean of the pollutant over the
    lines of the year in the file of that year, and missing when the
    file has no such column. *)
Lemma value_row_of f r p :
  row_of f = Some r → p ∈ Annual.pollutants →
  value p r = if decide (p ∈ columns f.2)
              then mean_skipna (cell (columns f.2) p
                                  <$> year_filter (year r) f.2)
              else None.
Proof.
  intros Hr Hp. unfold value. rewrite (row_of_means f r Hr), lookup_means.
  unfold valid_cols. destruct (decide (p ∈ columns f.2)) as [Hc|Hc].
  - rewrite decide_True; [done|]. by apply list_elem_of_filter.
  - rewrite decide_False; [done|]. by intros [? _]%list_elem_of_filter.
Qed.

Lemma column_ok pol df : is_ok (column pol df) ↔ ∃ r, r ∈ df ∧ pol ∈ (means r).*1.
Proof.
  unfold column. case_decide as Hex; simpl.
  - split; [|done]. intros _. by apply Exists_exists in Hex.
  - split; [done|]. intros Hr. by apply Hex, Exists_exists.
Qed.

Lemma trend_for_each_ok {A} (body : string → result A) :
  is_ok (for_each body Trend.pollutants)
  ↔ ∀ p, p ∈ Trend.pollutants → is_ok (body p).
Proof.
  unfold Trend.pollutants. simpl. split.
  - intros Hok p Hp.
    destruct (body "NO_2") eqn:H1; [|done].
    destruct (body "PM10") eqn:H2; [|done].
    destruct (body "O_3") eqn:H3; [|done].
    repeat (apply elem_of_cons in Hp as [->|Hp]; [by rewrite ?H1, ?H2, ?H3|]).
    by apply elem_of_nil in Hp.
  - intros Hall.
    pose proof (Hall "NO_2") as H1. pose proof (Hall "PM10") as H2.
    pose proof (Hall "O_3") as H3.
    destruct (body "NO_2"); [|apply H1; compute_done].
    destruct (body "PM10"); [|apply H2; compute_done].
    destruct (body "O_3"); [|apply H3; compute_done]. done.
Qed.

(** X14. On the summary the annual script writes, the trend chart is
    made exactly when each of [NO_2], [PM10] and [O_3] is a column of
    some file that adds a line to the summary; when it is not made,
    the exception is the [KeyError] of one of these columns. *)
Theorem trend_chart_columns DATA_DIR df :
  df_yearly DATA_DIR = Ok df →
  (is_ok (pollution_trend_chart df)
   ↔ ∀ p, p ∈ Trend.pollutants →
          ∃ f, f ∈ DATA_DIR ∧ is_Some (row_of f) ∧ p ∈ columns f.2) ∧
  (∀ e, pollution_trend_chart df = Raise e →
        ∃ p, p ∈ Trend.pollutants ∧ e = KeyError p).
Proof.
  intros Hdf. split; cycle 1.
  { unfold pollution_trend_chart, deltas, Trend.pollutants, colors, column.
    simpl. intros e.
    destruct (decide (Exists (λ r, "NO_2" ∈ (means r).*1) df)); simpl;
      [|intros [= <-]; eexists; split; [|done]; compute_done].
    destruct (decide (Exists (λ r, "PM10" ∈ (means r).*1) df)); simpl;
      [|intros [= <-]; eexists; split; [|done]; compute_done].
    destruct (decide (Exists (λ r, "O_3" ∈ (means r).*1) df)); simpl;
      [|intros [= <-]; eexists; split; [|done]; compute_done].
    done. }
  revert Hdf.
  unfold df_yearly.
  destruct (annual_data _) as [data|e] eqn:Hdata; simpl; [|done].
  case_decide; [done|]. intros [= <-]. apply annual_data_ok in Hdata.
  assert (∀ p, p ∈ Trend.pollutants →
            is_ok (column p (merge_sort year_le data))
            ↔ ∃ f, f ∈ DATA_DIR ∧ is_Some (row_of f) ∧ p ∈ columns f.2)
    as Hcol.
  { intros p Hp. rewrite column_ok.
    setoid_rewrite merge_sort_Permutation. subst data.
    setoid_rewrite list_elem_of_omap.
    setoid_rewrite elem_of_sorted_entries.
    assert (p ∈ Annual.pollutants) as Hp'.
    { revert Hp. unfold Trend.pollutants, Annual.pollutants.
      rewrite !elem_of_cons. tauto. }
    split.
    - intros (r & (f & Hf & Hr) & Hin). exists f. split; [done|].
      split; [by rewrite Hr|].
      rewrite (row_of_means f r Hr), <-list_fmap_compose in Hin.
      apply list_elem_of_fmap in Hin as (c & -> & Hc).
      by apply list_elem_of_filter in Hc as [? _].
    - intros (f & Hf & [r Hr] & Hc). exists r. split; [by exists f|].
      rewrite (row_of_means f r Hr), <-list_fmap_compose.
      apply list_elem_of_fmap. exists p. split; [done|].
      by apply list_elem_of_filter. }
  set (df := merge_sort year_le data) in *.
  unfold pollution_trend_chart, deltas. split.
  - intros Hok p Hp. apply Hcol; [done|].
    destruct (for_each _ Trend.pollutants) as [ds|] eqn:Hds; [|done].
    assert (is_ok (for_each (λ pol, col ← column pol df;
                               Ok ("delta_" +:+ pol, diff col))
                     Trend.pollutants)) as Hds' by by rewrite Hds.
    pose proof (proj1 (trend_for_each_ok _) Hds' p Hp) as Hp'. simpl in Hp'.
    by destruct (column p df).
  - intros Hall.
    assert (∀ p, p ∈ Trend.pollutants → is_ok (column p df)) as Hcols.
    { intros p Hp. apply Hcol; [done|]. by apply Hall. }
    pose proof (Hcols "NO_2") as H1. pose proof (Hcols "PM10") as H2.
    pose proof (Hcols "O_3") as H3. unfold Trend.pollutants, colors. simpl.
    destruct (column "NO_2" df); [|apply H1; compute_done].
    destruct (column "PM10" df); [|apply H2; compute_done].
    destruct (column "O_3" df); [|apply H3; compute_done]. done.
Qed.

(** X15. The trend chart has one line per pollutant, [NO_2], [PM10]
    and [O_3] in red, blue and green. Each has the years of the summary
    in ascending order as [x] and one point per year as [y]: the mean
    of the pollutant over the lines of that year in the file of that
    year, missing when that file has no such column. *)
Theorem trend_traces DATA_DIR df traces :
  df_yearly DATA_DIR = Ok df →
  pollution_trend_chart df = Ok traces →
  name <$> traces = Trend.pollutants ∧
  line_color <$> traces = colors ∧
  ∀ t, t ∈ traces →
    x t = year <$> df ∧ Sorted Z.le (x t) ∧ y t = value (name t) <$> df ∧
    ∀ f r, f ∈ DATA_DIR → row_of f = Some r →
      value (name t) r
      = if decide (name t ∈ columns f.2)
        then mean_skipna (cell (columns f.2) (name t)
                            <$> year_filter (year r) f.2)
        else None.
Proof.
  intros Hdf. unfold pollution_trend_chart.
  destruct (deltas df) as [ds|]; simpl; [|done].
  unfold Trend.pollutants, colors, column. simpl.
  destruct (decide (Exists (λ r, "NO_2" ∈ (means r).*1) df)); simpl; [|done].
  destruct (decide (Exists (λ r, "PM10" ∈ (means r).*1) df)); simpl; [|done].
  destruct (decide (Exists (λ r, "O_3" ∈ (means r).*1) df)); simpl; [|done].
  intros [= <-].
  split; [done|]. split; [done|].
  assert (Sorted Z.le (year <$> df)) as Hsorted.
  { revert Hdf. unfold df_yearly.
    destruct (annual_data _) as [data|]; simpl; [|done].
    case_decide; [done|]. intros [= <-].
    apply StronglySorted_Sorted, (StronglySorted_fmap _ year_le); [done|].
    apply StronglySorted_merge_sort; apply _. }
  intros t Ht.
  repeat (apply elem_of_cons in Ht as [->|Ht];
    [simpl; repeat split; try done;
     intros f r _ Hr; apply (value_row_of f r _ Hr); compute_done|]).
  by apply elem_of_nil in Ht.
Qed.

End trend.

(** ** The names the glob matches *)

Section glob_names.
Import Annual.

Lemma substring_all s : substring 0 (String.length s) s = s.
Proof. induction s as [|c s IH]; simpl; [done|]. by rewrite IH. Qed.

Lemma rev_app_append s t acc :
  String.rev_app (s +:+ t) acc = String.rev_app t (String.rev_app s acc).
Proof.
  revert acc. induction s as [|c s IH]; intros acc; [done|].
  rewrite string_app_cons. simpl. apply IH.
Qed.

Lemma rev_app_acc s acc : String.rev_app s acc = String.rev s +:+ acc.
Proof.
  unfold String.rev. revert acc.
  induction s as [|c s IH]; intros acc; simpl; [done|].
  by rewrite (IH (String c acc)), (IH (String c "")), string_app_assoc.
Qed.

Lemma prefix_app s t u : String.prefix s t = true → String.prefix s (t +:+ u) = true.
Proof.
  revert t. induction s as [|c s IH]; intros t.
  { intros _. by destruct (t +:+ u). }
  destruct t as [|c' t]; [done|]. rewrite string_app_cons. simpl.
  destruct (ascii_dec c c'); [apply IH|done].
Qed.

(** A suffix of the end of a name is a suffix of the name. *)
Lemma endswith_app s t suffix :
  endswith t suffix = true → endswith (s +:+ t) suffix = true.
Proof.
  unfold endswith, String.rev.
  rewrite rev_app_append, (rev_app_acc t (String.rev_app s "")).
  apply prefix_app.
Qed.

Lemma substring_split (n : nat) s :
  s = substring 0 n s +:+ substring n (String.length s - n) s.
Proof.
  revert s. induction n as [|n IH]; intros s.
  - rewrite Nat.sub_0_r, substring_all. by destruct s.
  - destruct s as [|c s]; [done|]. simpl. rewrite string_app_cons.
    by rewrite <-IH.
Qed.

Lemma prefix_madrid name :
  String.prefix "madrid_" name = true →
  name = "madrid_" +:+ substring 7 (String.length name - 7) name.
Proof.
  intros Hp%prefix_correct. pose proof (substring_split 7 name) as Hs.
  simpl String.length in Hp. by rewrite Hp in Hs.
Qed.

(** X16. A name the glob [madrid_*.csv] matches is never passed over
    by the name test of the annual script, and is never without an
    underscore: its year is read from what stands between [madrid_]
    and the next underscore or dot. *)
Theorem glob_names_in_annual name :
  matches_madrid_csv name = true →
  ∃ rest, name = "madrid_" +:+ rest ∧
    endswith name ".csv" = true ∧ name ≠ "stations.csv" ∧
    declared_year name
    = int (default "" (head (split "."%char
                               (default "" (head (split "_"%char rest)))))).
Proof.
  unfold matches_madrid_csv. intros [Hp He]%andb_true_iff.
  apply prefix_madrid in Hp.
  set (rest := substring 7 (String.length name - 7) name) in *.
  exists rest. split; [done|]. rewrite Hp. split; [|split].
  - by apply endswith_app.
  - done.
  - unfold declared_year.
    change ("madrid_" +:+ rest) with ("madrid" +:+ String "_" rest).
    rewrite split_app_sep by compute_done. simpl.
    by destruct (split_cons "_" rest) as (w & ws & ->).
Qed.

End glob_names.

(** ** The outcome of the station ranking *)

Section station_outcome.
Import StationRanking.

#[local] Instance station_value_ge_trans : Transitive value_ge.
Proof. intros x y z. unfold value_ge. intros ? ?. by etrans. Qed.
#[local] Instance station_value_ge_total : Total value_ge.
Proof. intros x y. unfold value_ge. destruct (total Qcle x.2 y.2); auto. Qed.

Lemma read_csv_is_ok d name : is_ok (read_csv d name) ↔ name ∈ d.*1.
Proof.
  induction d as [|[n c] d IH]; simpl.
  { split; [done|]. by intros ?%elem_of_nil. }
  rewrite elem_of_cons. case_decide as Hn; [by split; [left|]|].
  rewrite IH. split; [by right|]. by intros [?|?].
Qed.




Lemma filter_nil_intro {A} (P : A → Prop) `{∀ x, Decision (P x)} (l : list A) :
  (∀ x, x ∈ l → ¬ P x) → filter P l = [].
Proof.
  induction l as [|x l IH]; [done|]. intros Hall. rewrite filter_cons.
  rewrite decide_False by apply Hall, list_elem_of_here.
  apply IH. intros y Hy. by apply Hall, list_elem_of_further.
Qed.




End station_outcome.

(** ** The station figure *)

Section station_figure.
Import StationRanking StationFigure.

#[local] Instance figure_value_ge_trans : Transitive value_ge.
Proof. intros x y z. unfold value_ge. intros ? ?. by etrans. Qed.
#[local] Instance figure_value_ge_total : Total value_ge.
Proof. intros x y. unfold value_ge. destruct (total Qcle x.2 y.2); auto. Qed.

(** Along a list in descending order the colours come in blocks. *)
Lemma colors_sorted (l : list (string * Qc)) :
  StronglySorted value_ge l →
  colors l
  = (replicate (length (filter (λ nv, Qc_of_Z 40 ≤ nv.2) l)) "red"
     ++ replicate
          (length (filter (λ nv, Qc_of_Z 20 ≤ nv.2 ∧ nv.2 < Qc_of_Z 40) l))
          "orange"
     ++ replicate (length (filter (λ nv, nv.2 < Qc_of_Z 20) l)) "blue")%list.
Proof.
  induction 1 as [|[n v] l Hs IH Hall]; [done|].
  unfold colors in *. rewrite fmap_cons, IH, !filter_cons. simpl.
  rewrite Forall_forall in Hall. unfold value_ge in Hall. simpl in Hall.
  assert (Qc_of_Z 20 ≤ Qc_of_Z 40) as H2040
    by by apply (proj1 (Z2Qc_inj_le 20 40)).
  unfold color. destruct (decide (v < Qc_of_Z 20)) as [H20|H20].
  - assert (¬ Qc_of_Z 20 ≤ v) as Hn20 by by apply Qclt_not_le.
    assert (¬ Qc_of_Z 40 ≤ v) as Hn40.
    { intros Hle. apply Hn20. by etrans. }
    rewrite (decide_False (P := Qc_of_Z 40 ≤ v)) by done.
    rewrite (decide_False (P := Qc_of_Z 20 ≤ v ∧ v < Qc_of_Z 40)) by tauto.
    rewrite (filter_nil_intro (λ nv : string * Qc, Qc_of_Z 40 ≤ nv.2)).
    2: { intros nv Hnv Hle. apply Hn40. etrans; [exact Hle|by apply Hall]. }
    rewrite (filter_nil_intro
               (λ nv : string * Qc, Qc_of_Z 20 ≤ nv.2 ∧ nv.2 < Qc_of_Z 40)).
    2: { intros nv Hnv [Hle _]. apply Hn20. etrans; [exact Hle|by apply Hall]. }
    done.
  - apply Qcnot_lt_le in H20.
    destruct (decide (v < Qc_of_Z 40)) as [H40|H40].
    + assert (¬ Qc_of_Z 40 ≤ v) as Hn40 by by apply Qclt_not_le.
      rewrite (decide_False (P := Qc_of_Z 40 ≤ v)) by done.
      rewrite (decide_True (P := Qc_of_Z 20 ≤ v ∧ v < Qc_of_Z 40)) by done.
      rewrite (filter_nil_intro (λ nv : string * Qc, Qc_of_Z 40 ≤ nv.2)).
      2: { intros nv Hnv Hle. apply Hn40. etrans; [exact Hle|by apply Hall]. }
      done.
    + apply Qcnot_lt_le in H40.
      rewrite (decide_True (P := Qc_of_Z 40 ≤ v)) by done.
      rewrite (decide_False (P := Qc_of_Z 20 ≤ v ∧ v < Qc_of_Z 40)).
      2: { intros [_ Hlt]. by apply (Qclt_not_le _ _ Hlt). }
      done.
Qed.

(** X19. Along the bars of a pollutant the colours come in blocks:
    red for the means of 40 and more, then orange for those from 20 to
    below 40, then blue for those below 20. *)
Theorem station_colors_blocks DATA_DIR station_info lists p l :
  StationRanking.station_ranking_chart DATA_DIR station_info = Ok lists →
  (p, l) ∈ lists →
  colors l
  = (replicate (length (filter (λ nv, Qc_of_Z 40 ≤ nv.2) l)) "red"
     ++ replicate
          (length (filter (λ nv, Qc_of_Z 20 ≤ nv.2 ∧ nv.2 < Qc_of_Z 40) l))
          "orange"
     ++ replicate (length (filter (λ nv, nv.2 < Qc_of_Z 20) l)) "blue")%list.
Proof.
  unfold StationRanking.station_ranking_chart.
  destruct (read_csv _ _) as [df|]; simpl; [|done].
  destruct (pollutant_avgs _ _) as [avgs|]; simpl; [|done].
  intros [= <-] Hin.
  repeat (apply elem_of_cons in Hin as [[= -> ->]|Hin];
          [apply colors_sorted, StronglySorted_merge_sort; apply _|]).
  by apply elem_of_nil in Hin.
Qed.

(** X20. The station figure has a button per pollutant; the button
    number [i] shows the bars of the pollutant number [i] and the
    three traces of the legend, and nothing else. The active button
    is the one of [NO_2], and the traces shown at first are those its
    [visible] list shows. *)
Theorem station_buttons_select DATA_DIR station_info f :
  StationFigure.station_ranking_chart DATA_DIR station_info = Ok f →
  label <$> buttons f = selected_pollutants ∧
  (∀ i b t, buttons f !! i = Some b → data f !! i = Some t →
     length (args_visible b) = length (data f) ∧
     shown (args_visible b) (data f) = t :: tiers) ∧
  ∃ b, buttons f !! active f = Some b ∧ label b = "NO_2" ∧
       visible <$> data f = args_visible b.
Proof.
  unfold StationFigure.station_ranking_chart,
    StationRanking.station_ranking_chart.
  destruct (read_csv _ _) as [df|]; simpl; [|done].
  destruct (pollutant_avgs _ _) as [avgs|]; simpl; [|done].
  intros [= <-]. simpl. split; [done|]. split.
  - intros [|[|[|i]]] b t; simpl; intros [= <-]; intros [= <-]; done.
  - eexists. split; [done|]. done.
Qed.

End station_figure.

(** ** The station means *)

Section station_bounds.
Import StationRanking.



End station_bounds.

(** ** The further properties on the sample data *)

Section further_examples.
Import Examples Samples.

Lemma seasonal_table_sorted_witness :
  Seasonal.seasonal_pollution_chart DATA_DIR = Ok data_avg ∧
  NoDup ((λ r, (Seasonal.year r, Seasonal.season r, Seasonal.pollutant r))
           <$> data_avg).
Proof.
  assert (Seasonal.seasonal_pollution_chart DATA_DIR = Ok data_avg) as H
    by compute_done.
  split; [exact H|].
  exact (proj2 (seasonal_table_sorted DATA_DIR data_avg H)).
Defined.

Lemma seasonal_table_lines_witness :
  Seasonal.seasonal_pollution_chart DATA_DIR = Ok data_avg ∧
  ∃ f row m v,
    f ∈ glob_madrid DATA_DIR ∧ row ∈ rows f.2 ∧
    r_date row = DateOK 2002 m ∧ season_of (Some m) = "Winter" ∧
    "NO_2" ∈ Seasonal.value_vars f.2 ∧ cell (columns f.2) "NO_2" row = Some v.
Proof.
  assert (Seasonal.seasonal_pollution_chart DATA_DIR = Ok data_avg) as H
    by compute_done.
  split; [exact H|].
  apply (proj1 (seasonal_table_lines DATA_DIR data_avg H 2002 "Winter" "NO_2")).
  exists (Seasonal.AvgRow 2002 "Winter" "NO_2" (Qc_of_Z 50) 1).
  split; [compute_done|]. repeat split.
Defined.

Lemma seasonal_rank_range_witness :
  Seasonal.seasonal_pollution_chart DATA_DIR = Ok data_avg ∧
  (length (filter (Seasonal.in_group 2001 "NO_2") data_avg) ≤ 4)%nat.
Proof.
  assert (Seasonal.seasonal_pollution_chart DATA_DIR = Ok data_avg) as H
    by compute_done.
  assert (Seasonal.AvgRow 2001 "Fall" "NO_2" (Qc_of_Z 5) 3 ∈ data_avg) as Hr
    by compute_done.
  split; [exact H|].
  exact (proj2 (proj2 (seasonal_rank_range DATA_DIR data_avg H _ Hr))).
Defined.


Lemma seasonal_figure_needs_NO_2_witness :
  Seasonal.seasonal_pollution_chart DATA_DIR = Ok data_avg ∧
  is_ok (SeasonalFigure.seasonal_pollution_chart DATA_DIR).
Proof.
  assert (Seasonal.seasonal_pollution_chart DATA_DIR = Ok data_avg) as H
    by compute_done.
  split; [exact H|].
  apply (proj1 (seasonal_figure_needs_NO_2 DATA_DIR data_avg H)).
  exists ("madrid_2001.csv", madrid_2001),
    (Row (DateOK 2001 1) [qz 10; qz 4]), 2001%Z, 1%Z, (Qc_of_Z 10).
  split; [compute_done|]. split; [compute_done|]. split; reflexivity.
Defined.

Lemma seasonal_traces_partition_witness :
  Seasonal.seasonal_pollution_chart DATA_DIR = Ok data_avg ∧
  SeasonalFigure.traces data_avg ≫= SeasonalFigure.points
  ≡ₚ (λ r, (Seasonal.season r, Seasonal.year r, Seasonal.avg_value r,
            Seasonal.rank r)) <$> data_avg.
Proof.
  assert (Seasonal.seasonal_pollution_chart DATA_DIR = Ok data_avg) as H
    by compute_done.
  split; [exact H|]. exact (seasonal_traces_partition DATA_DIR data_avg H).
Defined.

Lemma seasonal_buttons_select_witness :
  SeasonalFigure.fig two_pollutants = Ok two_pollutants_fig ∧
  SeasonalFigure.label <$> SeasonalFigure.buttons two_pollutants_fig
  = SeasonalFigure.pollutants two_pollutants.
Proof.
  assert (SeasonalFigure.fig two_pollutants = Ok two_pollutants_fig) as H
    by compute_done.
  split; [exact H|].
  exact (proj1 (seasonal_buttons_select two_pollutants two_pollutants_fig H)).
Defined.

Lemma seasonal_initial_view_witness :
  SeasonalFigure.fig two_pollutants = Ok two_pollutants_fig ∧
  ∃ b, SeasonalFigure.buttons two_pollutants_fig
         !! SeasonalFigure.active two_pollutants_fig = Some b ∧
       SeasonalFigure.label b = "NO_2" ∧
       SeasonalFigure.visible <$> SeasonalFigure.data two_pollutants_fig
       = SeasonalFigure.args_visible b.
Proof.
  assert (SeasonalFigure.fig two_pollutants = Ok two_pollutants_fig) as H
    by compute_done.
  split; [exact H|].
  exact (seasonal_initial_view two_pollutants two_pollutants_fig H).
Defined.

Lemma shares_in_unit_interval_witness :
  SeasonalShare.seasonal_pollution_pie_chart "NO_2" DATA_DIR
    = (skipped_2002, Ok shares) ∧
  ∀ r, r ∈ shares →
    SeasonalShare.percent r = NaN ∨
    ∃ v, SeasonalShare.percent r = Num v ∧ 0 ≤ v ∧ v ≤ 1.
Proof.
  assert (SeasonalShare.seasonal_pollution_pie_chart "NO_2" DATA_DIR
          = (skipped_2002, Ok shares)) as H by compute_done.
  split; [exact H|].
  apply (shares_in_unit_interval "NO_2" DATA_DIR skipped_2002 shares H).
  assert (Forall (λ f : string * csv,
            Forall (λ row,
                      from_option (λ v, bool_decide (0 ≤ v)) true
                        (cell (columns f.2) "NO_2" row) = true)
                   (rows f.2)) (glob_madrid DATA_DIR)) as Hall by compute_done.
  intros f row v Hf Hrow Hv. rewrite Forall_forall in Hall.
  specialize (Hall f Hf). rewrite Forall_forall in Hall.
  specialize (Hall row Hrow). rewrite Hv in Hall.
  by apply bool_decide_eq_true in Hall.
Defined.


Lemma declared_year_round_trip_witness :
  ("_"%char ∉ list_ascii_of_string "madrid") ∧
  Annual.declared_year ("madrid" +:+ "_" +:+ pretty 2001%N +:+ "." +:+ "csv")
  = Ok 2001%Z.
Proof.
  assert ("_"%char ∉ list_ascii_of_string "madrid") as H by compute_done.
  split; [exact H|].
  exact (declared_year_round_trip "madrid" 2001 "csv" H).
Defined.

Lemma annual_needs_underscore_witness :
  ("notes.csv", Csv true ["NO_2"] []) ∈ with_notes ∧
  ¬ is_ok (Annual.df_yearly with_notes).
Proof.
  assert (("notes.csv", Csv true ["NO_2"] []) ∈ with_notes) as H
    by compute_done.
  split; [exact H|].
  apply (annual_needs_underscore with_notes _ H);
    [reflexivity|compute_done|compute_done].
Defined.

Lemma trend_chart_columns_witness :
  Annual.df_yearly trend_dir = Ok trend_yearly ∧
  is_ok (Trend.pollution_trend_chart trend_yearly).
Proof.
  assert (Annual.df_yearly trend_dir = Ok trend_yearly) as H by compute_done.
  split; [exact H|].
  apply (proj2 (proj1 (trend_chart_columns trend_dir trend_yearly H))).
  intros p Hp.
  exists ("madrid_2001.csv",
          Csv true ["NO_2"; "PM10"; "O_3"]
            [Row (DateOK 2001 1) [qz 10; qz 20; qz 30];
             Row (DateOK 2001 7) [qz 30; qz 40; None]]).
  split; [compute_done|]. split; [by eexists|].
  revert Hp. unfold Trend.pollutants. simpl. rewrite !elem_of_cons.
  intros [->|[->|[->|[]%elem_of_nil]]]; tauto.
Defined.

Lemma trend_traces_witness :
  Annual.df_yearly trend_dir = Ok trend_yearly ∧
  Trend.pollution_trend_chart trend_yearly = Ok trend_lines ∧
  Trend.name <$> trend_lines = Trend.pollutants.
Proof.
  assert (Annual.df_yearly trend_dir = Ok trend_yearly) as H by compute_done.
  assert (Trend.pollution_trend_chart trend_yearly = Ok trend_lines) as Ht
    by compute_done.
  split; [exact H|]. split; [exact Ht|].
  exact (proj1 (trend_traces trend_dir trend_yearly trend_lines H Ht)).
Defined.

Lemma glob_names_in_annual_witness :
  matches_madrid_csv "madrid_2001.csv" = true ∧
  ∃ rest, "madrid_2001.csv" = "madrid_" +:+ rest ∧
    endswith "madrid_2001.csv" ".csv" = true ∧
    "madrid_2001.csv" ≠ "stations.csv" ∧
    Annual.declared_year "madrid_2001.csv"
    = int (default "" (head (split "."%char
                               (default "" (head (split "_"%char rest)))))).
Proof.
  assert (matches_madrid_csv "madrid_2001.csv" = true) as H by reflexivity.
  split; [exact H|]. exact (glob_names_in_annual "madrid_2001.csv" H).
Defined.


Lemma station_colors_blocks_witness :
  StationRanking.station_ranking_chart DATA_DIR_2018 stations
    = Ok rankings_2018 ∧
  StationFigure.colors [("A", Qc_of_Z 30); ("B", Qc_of_Z 10)]
  = ["orange"; "blue"].
Proof.
  assert (StationRanking.station_ranking_chart DATA_DIR_2018 stations
          = Ok rankings_2018) as H by compute_done.
  assert (("NO_2", [("A", Qc_of_Z 30); ("B", Qc_of_Z 10)]) ∈ rankings_2018)
    as Hin by compute_done.
  split; [exact H|].
  rewrite (station_colors_blocks DATA_DIR_2018 stations rankings_2018
             "NO_2" _ H Hin).
  compute_done.
Defined.

Lemma station_buttons_select_witness :
  StationFigure.station_ranking_chart DATA_DIR_2018 stations = Ok fig_2018 ∧
  StationFigure.label <$> StationFigure.buttons fig_2018
  = StationRanking.selected_pollutants.
Proof.
  assert (StationFigure.station_ranking_chart DATA_DIR_2018 stations
          = Ok fig_2018) as H by compute_done.
  split; [exact H|].
  exact (proj1 (station_buttons_select DATA_DIR_2018 stations fig_2018 H)).
Defined.


End further_examples.
